(** * yt-mp3-bot: a shallow embedding of the size-constrained delivery pipeline

    The Go program (package [main]) receives a text message, validates it as
    a YouTube URL, downloads the audio with [yt-dlp], splits the file with
    [ffmpeg] when it is larger than [maxFileSize] and sends the file (or its
    parts) through the Telegram transport, deleting every file it sent.

    Conventions of the embedding:
    - Go's [int64] and [int] (a 64-bit target is assumed) are [Z]; the
      arithmetic of [calculateSegmentTime] wraps at 64 bits and a division
      by zero is a run-time panic;
    - a Go [string] is a [string] of bytes;
    - a Go [error] is [option string]: [None] is [nil], [Some msg] an error
      whose [Error()] text is [msg];
    - the file system is a finite map from paths to the sizes of the regular
      files, the transport and the external tools are oracles of an
      environment [Env], and every call that leaves the process is recorded
      in a trace of [Event]s. *)

From Stdlib Require Import ZArith Lia.
From stdpp Require Import base tactics option list numbers strings pretty gmap.

Local Open Scope string_scope.
Local Open Scope list_scope.
Local Open Scope Z_scope.

(** ** Go integers *)

Module GoInt.

Definition min_int64 : Z := - 2 ^ 63.
Definition max_int64 : Z := 2 ^ 63 - 1.

Definition in_int64 (x : Z) : Prop := min_int64 <= x <= max_int64.

(** Two's complement wrap-around of a mathematical result to 64 bits. *)
Definition wrap64 (x : Z) : Z := (x + 2 ^ 63) mod 2 ^ 64 - 2 ^ 63.

(** Integer division [a / b] of Go: truncated towards zero, wrapping
    (only [min_int64 / -1] overflows), and a run-time panic when the
    divisor is zero ([None]). *)
Definition div (a b : Z) : option Z :=
  if decide (b = 0) then None else Some (wrap64 (a ÷ b)).

End GoInt.

(** ** Strings: the parts of [strings] and [fmt] the program uses *)

Module GoStrings.

(** [strings.HasPrefix] *)
Fixpoint HasPrefix (s prefix : string) {struct prefix} : bool :=
  match prefix, s with
  | EmptyString, _ => true
  | String c p, String d s' => if decide (c = d) then HasPrefix s' p else false
  | String _ _, EmptyString => false
  end.

(** [strings.Contains s substr]: [substr] occurs in [s] at some offset. *)
Fixpoint Contains (s substr : string) : bool :=
  HasPrefix s substr ||
  match s with
  | EmptyString => false
  | String _ s' => Contains s' substr
  end.

Definition bytes (codes : list nat) : string :=
  foldr (λ n s, String (Ascii.ascii_of_nat n) s) EmptyString codes.

(** The UTF-8 encodings of the runes for which [unicode.IsSpace] holds:
    tab, line feed, vertical tab, form feed, carriage return, space,
    U+0085, U+00A0, U+1680, U+2000..U+200A, U+2028, U+2029, U+202F, U+205F
    and U+3000. *)
Definition space_runes : list string :=
  map bytes
    (app [ [9]; [10]; [11]; [12]; [13]; [32]; [194; 133]; [194; 160];
           [225; 154; 128] ]
    (app (map (λ b, [226; 128; b]) (seq 128 11))
         [ [226; 128; 168]; [226; 128; 169]; [226; 128; 175];
           [226; 129; 159]; [227; 128; 128] ]))%nat.

(** [strip_prefix p s] is the rest of [s] after its prefix [p]. *)
Fixpoint strip_prefix (p s : string) {struct p} : option string :=
  match p, s with
  | EmptyString, _ => Some s
  | String c p', String d s' => if decide (c = d) then strip_prefix p' s' else None
  | String _ _, EmptyString => None
  end.

(** The string after one leading rune out of [runes], if it starts with one. *)
Fixpoint strip_rune (runes : list string) (s : string) : option string :=
  match runes with
  | [] => None
  | r :: rs =>
      match strip_prefix r s with
      | Some s' => Some s'
      | None => strip_rune rs s
      end
  end.

(** Drops leading runes of [runes]; at most [fuel] of them. *)
Fixpoint trim_left (runes : list string) (fuel : nat) (s : string) : string :=
  match fuel with
  | O => s
  | S fuel' =>
      match strip_rune runes s with
      | Some s' => trim_left runes fuel' s'
      | None => s
      end
  end.

Definition TrimLeftSpace (s : string) : string :=
  trim_left space_runes (String.length s) s.

(** Trailing white space, found by decoding the last rune: on the reversed
    string these are the reversed encodings at the front. *)
Definition TrimRightSpace (s : string) : string :=
  String.rev
    (trim_left (map String.rev space_runes) (String.length s) (String.rev s)).

(** [strings.TrimSpace]: all leading and trailing white space removed. *)
Definition TrimSpace (s : string) : string :=
  TrimRightSpace (TrimLeftSpace s).

(** [fmt.Sprintf("%d", x)] *)
Definition fmt_d (x : Z) : string := pretty x.

(** [fmt.Sprintf("%03d", i)] for an index [i >= 0]: decimal, padded with
    zeros to a width of three. *)
Definition fmt_03d (i : nat) : string :=
  if decide (i < 10)%nat then "00" +:+ pretty i
  else if decide (i < 100)%nat then "0" +:+ pretty i
  else pretty i.

(** How [%v] and [Println] print an error value. *)
Definition fmt_err (err : option string) : string :=
  match err with
  | None => "<nil>"
  | Some msg => msg
  end.

End GoStrings.
Import GoStrings.

(** ** The world outside the process *)

(** What the program hands to [bot.Send]. *)
Inductive Chattable : Type :=
  | NewMessage (chatID : Z) (text : string)
  | NewAudio (chatID : Z) (filePath : string).

(** The calls that leave the process, in the order they are made. *)
Inductive Event : Type :=
  | EvSend (c : Chattable)
  | EvRemove (path : string)
  | EvStat (path : string)
  | EvExec (name : string) (args : list string)
  | EvNow
  | EvLog (line : string).

Global Instance Chattable_eq_dec : EqDecision Chattable.
Proof. solve_decision. Defined.
Global Instance Event_eq_dec : EqDecision Event.
Proof. solve_decision. Defined.

(** The local disk (path to size in bytes of each regular file) and the
    history of calls so far. *)
Record World : Type := mkWorld {
  files : gmap string Z;
  trace : list Event;
}.

(** The collaborators the program does not control.  Each oracle sees the
    whole world at the moment of the call, so its answer may depend on the
    disk and on everything that happened before. *)
Record Env : Type := mkEnv {
  (** [bot.Send]: [None] when the transport accepted the request. *)
  tg_send : World → Chattable → option string;
  (** [exec.Command(name, args...).CombinedOutput()] for [ffmpeg] and
      [yt-dlp]: the disk the tool leaves, its output and its error. *)
  run_tool : World → string → list string → gmap string Z * string * option string;
  (** [time.Now().UnixNano()] *)
  clock : World → Z;
}.

(** ** Running Go code: state, panics, and loops that must stop *)

Inductive Outcome (A : Type) : Type :=
  | Returns (a : A)
  | Panics (msg : string)
  | OutOfFuel.
Global Arguments Returns {A} a.
Global Arguments Panics {A} msg.
Global Arguments OutOfFuel {A}.

Definition IO (A : Type) : Type := World → Outcome A * World.

Global Instance IO_ret : MRet IO := λ A a w, (Returns a, w).
Global Instance IO_bind : MBind IO := λ A B f m w,
  match m w with
  | (Returns a, w') => f a w'
  | (Panics msg, w') => (Panics msg, w')
  | (OutOfFuel, w') => (OutOfFuel, w')
  end.

Definition record (e : Event) (w : World) : World :=
  mkWorld (files w) (trace w ++ [e]).

Definition panic {A : Type} (msg : string) : IO A := λ w, (Panics msg, w).

(** A Go expression that may panic, run inside a function. *)
Definition eval {A : Type} (x : option A) (msg : string) : IO A :=
  match x with
  | Some a => mret a
  | None => panic msg
  end.

(** The number of regular files on the disk, read without any effect; it
    bounds the probing loop of [splitFile]. *)
Definition disk_size : IO nat := λ w, (Returns (size (files w)), w).

Section Program.

Variable env : Env.

(** *** Library calls *)

Definition log_Println (line : string) : IO () := λ w,
  (Returns (), record (EvLog line) w).

Definition bot_Send (c : Chattable) : IO (option string) := λ w,
  (Returns (tg_send env w c), record (EvSend c) w).

(** [os.Remove]: the disk grants the removal of every file it holds; the
    removal of a missing path is an error and changes nothing. *)
Definition os_Remove (path : string) : IO (option string) := λ w,
  (Returns (match files w !! path with
            | Some _ => None
            | None => Some ("remove " +:+ path +:+ ": no such file or directory")
            end),
   mkWorld (delete path (files w)) (trace w ++ [EvRemove path])).

(** [os.Stat] followed by [fileInfo.Size()]. *)
Definition os_Stat (path : string) : IO (Z * option string) := λ w,
  (Returns (match files w !! path with
            | Some sz => (sz, None)
            | None => (0, Some ("stat " +:+ path +:+ ": no such file or directory"))
            end),
   record (EvStat path) w).

Definition exec_CombinedOutput (name : string) (args : list string)
  : IO (string * option string) := λ w,
  let '(disk, output, err) := run_tool env w name args in
  (Returns (output, err), mkWorld disk (trace w ++ [EvExec name args])).

(** [exec.Command("test", "-f", path).Run()]: the POSIX utility exits with
    status 0 exactly when [path] is a regular file. *)
Definition exec_test_f (path : string) : IO (option string) := λ w,
  (Returns (match files w !! path with
            | Some _ => None
            | None => Some "exit status 1"
            end),
   record (EvExec "test" ["-f"; path]) w).

Definition time_Now_UnixNano : IO Z := λ w,
  (Returns (clock env w), record EvNow w).

(** *** package main *)

Definition maxFileSize : Z := 49 * 1024 * 1024.
Definition bitrateKBps : Z := 128.

Record Message : Type := mkMessage {
  Chat_ID : Z;
  Text : string;
}.

Definition isValidYouTubeURL (url : string) : bool :=
  Contains url "youtube.com/watch" || Contains url "youtu.be/".

(** [None] is the run-time panic of an integer division by zero.  The
    conversions [int64(...)] and [int(...)] leave a 64-bit value as it is. *)
Definition calculateSegmentTime (chunkSize bitrateKbps : Z) : option Z :=
  chunkSizeKB ← GoInt.div chunkSize 1024;
  bitrateKBps ← GoInt.div bitrateKbps 8;
  segmentTime ← GoInt.div chunkSizeKB bitrateKBps;
  Some segmentTime.

Definition sendFile (filePath : string) (chatID : Z) : IO (option string) :=
  err ← bot_Send (NewAudio chatID filePath);
  _ ← os_Remove filePath;
  mret err.

Definition partFilename (filePath : string) (i : nat) : string :=
  filePath +:+ ".part" +:+ fmt_03d i +:+ ".mp3".

(** The probing loop [for { ... i++ }] of [splitFile]; [fuel] bounds the
    number of iterations. *)
Fixpoint probeParts (fuel : nat) (filePath : string) (i : nat)
    (partFiles : list string) : IO (list string) :=
  match fuel with
  | O => λ w, (OutOfFuel, w)
  | S fuel' =>
      err ← exec_test_f (partFilename filePath i);
      match err with
      | Some _ => mret partFiles
      | None =>
          probeParts fuel' filePath (S i) (partFiles ++ [partFilename filePath i])
      end
  end.

Definition splitFile (filePath : string) (chunkSize bitrateKbps : Z)
  : IO (list string * option string) :=
  segmentTime ← eval (calculateSegmentTime chunkSize bitrateKbps)
                     "runtime error: integer divide by zero";
  _ ← log_Println ("Splitting file with segment time of "
                   +:+ fmt_d segmentTime +:+ " seconds");
  let outputPattern := filePath +:+ ".part%03d.mp3" in
  '(output, err) ← exec_CombinedOutput "ffmpeg"
     ["-i"; filePath; "-f"; "segment"; "-segment_time"; fmt_d segmentTime;
      "-c"; "copy"; outputPattern];
  match err with
  | Some e =>
      _ ← log_Println ("Error splitting file with ffmpeg: " +:+ e
                       +:+ String (Ascii.ascii_of_nat 10) output);
      mret ([], Some e)
  | None =>
      n ← disk_size;
      partFiles ← probeParts (S n) filePath 0 [];
      _ ← log_Println ("File split successfully into "
                       +:+ fmt_d (Z.of_nat (length partFiles)) +:+ " parts");
      mret (partFiles, None)
  end.

(** The loop [for _, part := range partFiles] of [checkAndSendFile]. *)
Fixpoint sendParts (partFiles : list string) (chatID : Z) : IO (option string) :=
  match partFiles with
  | [] => mret None
  | part :: rest =>
      err ← sendFile part chatID;
      match err with
      | Some e => mret (Some ("error sending file part: " +:+ e))
      | None => sendParts rest chatID
      end
  end.

Definition checkAndSendFile (filePath : string) (chatID : Z) : IO (option string) :=
  '(fileInfo_Size, err) ← os_Stat filePath;
  match err with
  | Some e => mret (Some ("could not check file size: " +:+ e))
  | None =>
      if decide (fileInfo_Size > maxFileSize) then
        _ ← log_Println "File exceeds 50 MB, splitting into parts";
        '(partFiles, err) ← splitFile filePath maxFileSize bitrateKBps;
        match err with
        | Some e => mret (Some ("error splitting file: " +:+ e))
        | None => sendParts partFiles chatID
        end
      else
        err ← sendFile filePath chatID;
        match err with
        | Some e => mret (Some ("error sending file: " +:+ e))
        | None => mret None
        end
  end.

Definition downloadMp3 (url : string) (chatID : Z)
  : IO (string * string * option string) :=
  timestamp ← time_Now_UnixNano;
  let stem := "download_" +:+ fmt_d chatID +:+ "_" +:+ fmt_d timestamp in
  let filenameTemplate := stem +:+ ".%(ext)s" in
  '(output, err) ← exec_CombinedOutput "yt-dlp"
     ["-x"; "--audio-format"; "mp3";
      "--audio-quality"; fmt_d bitrateKBps +:+ "K";
      "-o"; filenameTemplate; url];
  _ ← log_Println ("yt-dlp output: " +:+ output);
  match err with
  | Some e =>
      _ ← log_Println ("Error executing yt-dlp: " +:+ e);
      mret ("", "", Some e)
  | None => mret (stem +:+ ".mp3", stem +:+ ".m4a", None)
  end.

(** A failed reply is logged and otherwise ignored. *)
Definition log_if_failed (err : option string) : IO () :=
  match err with
  | Some e => log_Println ("Error sending message: " +:+ e)
  | None => mret ()
  end.

Definition handleMessage (message : Message) : IO () :=
  let url := TrimSpace (Text message) in
  if negb (isValidYouTubeURL url) then
    err ← bot_Send (NewMessage (Chat_ID message)
                      "Please send a valid YouTube video URL.");
    log_if_failed err
  else
    err ← bot_Send (NewMessage (Chat_ID message)
                      "Starting to process your request...");
    _ ← log_if_failed err;
    '(mp3FilePath, m4aFilePath, err) ← downloadMp3 url (Chat_ID message);
    match err with
    | Some e =>
        err ← bot_Send (NewMessage (Chat_ID message)
                          ("Error downloading mp3: " +:+ e));
        _ ← log_if_failed err;
        log_Println ("Error downloading mp3: " +:+ fmt_err err)
    | None =>
        err ← checkAndSendFile mp3FilePath (Chat_ID message);
        _ ← match err with
            | Some e =>
                err ← bot_Send (NewMessage (Chat_ID message)
                                  ("Error sending mp3: " +:+ e));
                _ ← log_if_failed err;
                log_Println ("Error sending mp3: " +:+ fmt_err err)
            | None => mret ()
            end;
        _ ← os_Remove m4aFilePath;
        mret ()
    end.

End Program.

(** The byte rate the planner works with: [bitrateKbps / 8] whole
    kilobytes per second, a kilobyte being the 1024 bytes by which
    [chunkSize] is divided. *)
Definition rateBytesPerSecond (bitrateKbps : Z) : Z := (bitrateKbps ÷ 8) * 1024.

(** ** Vocabulary of the statements *)

(** The value a run returned, if it returned. *)
Definition returned {A : Type} (r : Outcome A * World) : option A :=
  match r.1 with
  | Returns a => Some a
  | _ => None
  end.

(** The calls made between the world [w] and the later world [w']. *)
Definition new_events (w w' : World) : list Event :=
  drop (length (trace w)) (trace w').

(** The command line [splitFile] gives to [ffmpeg]. *)
Definition ffmpeg_args (filePath : string) (segmentTime : Z) : list string :=
  ["-i"; filePath; "-f"; "segment"; "-segment_time"; fmt_d segmentTime;
   "-c"; "copy"; filePath +:+ ".part%03d.mp3"].

Definition splitting_log (segmentTime : Z) : Event :=
  EvLog ("Splitting file with segment time of " +:+ fmt_d segmentTime +:+ " seconds").

Definition split_done_log (n : nat) : Event :=
  EvLog ("File split successfully into " +:+ fmt_d (Z.of_nat n) +:+ " parts").

Definition exceeds_log : Event := EvLog "File exceeds 50 MB, splitting into parts".

(** The world in which [checkAndSendFile], started in [w], calls
    [splitFile], and the one in which [splitFile] then calls [ffmpeg]. *)
Definition split_call_world (filePath : string) (w : World) : World :=
  record exceeds_log (record (EvStat filePath) w).

Definition ffmpeg_call_world (filePath : string) (w : World) : World :=
  record (splitting_log 3136) (split_call_world filePath w).

(** The probe of part [i] of [filePath]. *)
Definition probe_event (filePath : string) (i : nat) : Event :=
  EvExec "test" ["-f"; partFilename filePath i].

(** The part names with the indices [0 .. n-1], in this order. *)
Definition part_names (filePath : string) (n : nat) : list string :=
  map (partFilename filePath) (seq 0 n).

(** [n] is the first index whose part file is not on [disk]. *)
Definition first_missing (disk : gmap string Z) (filePath : string) (n : nat) : Prop :=
  (∀ i, (i < n)%nat → is_Some (disk !! partFilename filePath i)) ∧
  disk !! partFilename filePath n = None.

(** What [sendFile] does with each of [parts] in turn: a send, then the
    removal of that file. *)
Definition delivery_events (chatID : Z) (parts : list string) : list Event :=
  parts ≫= λ part, [EvSend (NewAudio chatID part); EvRemove part].

(** The world once [sendFile] has run on each of [parts] in turn. *)
Definition after_delivery (chatID : Z) (parts : list string) (w : World) : World :=
  mkWorld (foldl (λ disk part, delete part disk) (files w) parts)
          (trace w ++ delivery_events chatID parts).

(** In a delivery of [parts] that starts in [w], the transport accepts the
    parts before index [k] and refuses the one at index [k] with [cause]. *)
Definition first_failure (env : Env) (chatID : Z) (parts : list string)
    (w : World) (k : nat) (cause : string) : Prop :=
  (∀ i part, (i < k)%nat → parts !! i = Some part →
     tg_send env (after_delivery chatID (take i parts) w) (NewAudio chatID part) = None) ∧
  (∃ part, parts !! k = Some part ∧
     tg_send env (after_delivery chatID (take k parts) w) (NewAudio chatID part)
       = Some cause).

(** The paths removed by the calls [evs], in the order of their removal. *)
Definition removed (evs : list Event) : list string :=
  omap (λ e, match e with EvRemove path => Some path | _ => None end) evs.

(** Calls that neither stat nor remove a file nor run [ffmpeg]. *)
Definition quiet (e : Event) : Prop :=
  match e with
  | EvStat _ | EvRemove _ => False
  | EvExec name _ => name ≠ "ffmpeg"
  | _ => True
  end.

(** An external tool never takes [path] away. *)
Definition tools_keep (env : Env) (path : string) : Prop :=
  ∀ w name args,
    is_Some (files w !! path) → is_Some ((run_tool env w name args).1.1 !! path).

(** ** Concrete environments *)

Module Scenario.

(** [yt-dlp] writes [download_7_42.mp3], one byte above the limit;
    [ffmpeg] writes [parts] part files of its input of 1000 bytes each; the
    transport refuses the audio file named [refused] with "timeout" and
    accepts everything else; the clock reads 42. *)
Definition tool (parts : nat) (w : World) (name : string) (args : list string)
  : gmap string Z * string * option string :=
  if decide (name = "yt-dlp") then
    (<["download_7_42.mp3" := maxFileSize + 1]> (files w), "done", None)
  else
    (foldr (λ i disk, <[partFilename (default "" (args !! 1%nat)) i := 1000]> disk)
           (files w) (seq 0 parts),
     "done", None).

Definition transport (refused : option string) (w : World) (c : Chattable)
  : option string :=
  match c with
  | NewAudio _ filePath =>
      if decide (Some filePath = refused) then Some "timeout" else None
  | NewMessage _ _ => None
  end.

Definition env (parts : nat) (refused : option string) : Env :=
  mkEnv (transport refused) (tool parts) (λ _, 42).

(** A disk that holds the file [song.mp3], one byte above the limit. *)
Definition big_song : World := mkWorld {[ "song.mp3" := maxFileSize + 1 ]} [].

(** A disk that holds the file [song.mp3] of exactly the limit. *)
Definition full_song : World := mkWorld {[ "song.mp3" := maxFileSize ]} [].

Definition empty_world : World := mkWorld ∅ [].

End Scenario.

(** ** Vocabulary for whole requests *)

(** The acknowledgement the handler sends for an accepted text. *)
Definition ack_message (message : Message) : Chattable :=
  NewMessage (Chat_ID message) "Starting to process your request...".

(** A text reply: the send and, when the transport refuses it, the log
    line about that. *)
Definition reply_events (env : Env) (c : Chattable) (w : World) : list Event :=
  EvSend c ::
  match tg_send env w c with
  | Some e => [EvLog ("Error sending message: " +:+ e)]
  | None => []
  end.

Definition after_reply (env : Env) (c : Chattable) (w : World) : World :=
  mkWorld (files w) (trace w ++ reply_events env c w).

(** The report of a failure [what e] to the chat: the reply, then the log
    line, which prints the answer of the transport to that reply. *)
Definition report_events (env : Env) (chatID : Z) (what e : string) (w : World)
  : list Event :=
  reply_events env (NewMessage chatID (what +:+ e)) w ++
  [EvLog (what +:+ fmt_err (tg_send env w (NewMessage chatID (what +:+ e))))].

(** The names [downloadMp3] derives from the chat and the clock. *)
Definition download_stem (chatID timestamp : Z) : string :=
  "download_" +:+ fmt_d chatID +:+ "_" +:+ fmt_d timestamp.

(** The command line [downloadMp3] gives to [yt-dlp]. *)
Definition ytdlp_args (chatID timestamp : Z) (url : string) : list string :=
  ["-x"; "--audio-format"; "mp3"; "--audio-quality"; fmt_d bitrateKBps +:+ "K";
   "-o"; download_stem chatID timestamp +:+ ".%(ext)s"; url].

(** The events of [downloadMp3] when the tool printed [out] and returned
    [err]. *)
Definition download_events (chatID timestamp : Z) (url out : string)
    (err : option string) : list Event :=
  [EvNow; EvExec "yt-dlp" (ytdlp_args chatID timestamp url);
   EvLog ("yt-dlp output: " +:+ out)] ++
  match err with
  | Some e => [EvLog ("Error executing yt-dlp: " +:+ e)]
  | None => []
  end.

(** For a request [message] that starts in [w] with an accepted text: the
    world in which the clock is read, the time it shows, and the world in
    which [yt-dlp] is called. *)
Definition clock_world (env : Env) (message : Message) (w : World) : World :=
  after_reply env (ack_message message) w.

Definition request_time (env : Env) (message : Message) (w : World) : Z :=
  clock env (clock_world env message w).

Definition request_stem (env : Env) (message : Message) (w : World) : string :=
  download_stem (Chat_ID message) (request_time env message w).

Definition download_call_world (env : Env) (message : Message) (w : World) : World :=
  record EvNow (clock_world env message w).

(** What [yt-dlp] answers to the request: the disk it leaves, its output
    and its error. *)
Definition download_result (env : Env) (message : Message) (w : World)
  : gmap string Z * string * option string :=
  run_tool env (download_call_world env message w) "yt-dlp"
    (ytdlp_args (Chat_ID message) (request_time env message w)
       (TrimSpace (Text message))).

(** The world in which [downloadMp3] returns. *)
Definition download_done_world (env : Env) (message : Message) (w : World) : World :=
  let '(disk, out, err) := download_result env message w in
  mkWorld disk
    (trace (clock_world env message w) ++
     download_events (Chat_ID message) (request_time env message w)
       (TrimSpace (Text message)) out err).

(** The audio files handed to the transport by the calls [evs]. *)
Definition audio_sent (evs : list Event) : list string :=
  omap (λ e, match e with EvSend (NewAudio _ path) => Some path | _ => None end) evs.

(** The world after the report of the error [err], if any, to the chat. *)
Definition after_report (env : Env) (chatID : Z) (what : string)
    (err : option string) (w : World) : World :=
  match err with
  | Some e => mkWorld (files w) (trace w ++ report_events env chatID what e w)
  | None => w
  end.

(** The world in which the handler returns, when [checkAndSendFile] returned
    [err] in [w4] and [stem] names the download. *)
Definition request_end_world (env : Env) (chatID : Z) (stem : string)
    (err : option string) (w4 : World) : World :=
  let w5 := after_report env chatID "Error sending mp3: " err w4 in
  mkWorld (delete (stem +:+ ".m4a") (files w5))
          (trace w5 ++ [EvRemove (stem +:+ ".m4a")]).

(** The texts sent to the chat by the calls [evs]. *)
Definition text_sent (evs : list Event) : list string :=
  omap (λ e, match e with EvSend (NewMessage _ text) => Some text | _ => None end) evs.

(** [path] is the file [filePath] or one of its parts. *)
Definition own_file (filePath path : string) : Prop :=
  path = filePath ∨ ∃ i, path = partFilename filePath i.

(** The calls [checkAndSendFile filePath chatID] may make. *)
Definition delivery_call (filePath : string) (chatID : Z) (e : Event) : Prop :=
  match e with
  | EvStat path => path = filePath
  | EvLog _ => True
  | EvExec name _ => name = "ffmpeg" ∨ name = "test"
  | EvSend (NewAudio c path) => c = chatID ∧ own_file filePath path
  | EvRemove path => own_file filePath path
  | EvSend (NewMessage _ _) | EvNow => False
  end.

(** The bytes of a string. *)
Fixpoint chars (s : string) : list Ascii.ascii :=
  match s with
  | EmptyString => []
  | String c s' => c :: chars s'
  end.

(** ** More concrete environments *)

Module Cases.

(** [yt-dlp] fails with "exit status 1" when [download] is [None] and
    otherwise writes [download_7_42.mp3] with that size; [ffmpeg] fails with
    "exit status 1" after writing a first part when [parts] is [None] and
    otherwise writes that many parts of its input; the transport and the
    clock are those of [Scenario]. *)
Definition tool (download : option Z) (parts : option nat) (w : World)
    (name : string) (args : list string)
  : gmap string Z * string * option string :=
  if decide (name = "yt-dlp") then
    match download with
    | Some sz => (<["download_7_42.mp3" := sz]> (files w), "done", None)
    | None => (files w, "ERROR: Video unavailable", Some "exit status 1")
    end
  else
    match parts with
    | Some n =>
        (foldr (λ i disk, <[partFilename (default "" (args !! 1%nat)) i := 1000]> disk)
               (files w) (seq 0 n),
         "done", None)
    | None =>
        (<[partFilename (default "" (args !! 1%nat)) 0 := 500]> (files w),
         "Conversion failed!", Some "exit status 1")
    end.

Definition env (download : option Z) (parts : option nat)
    (refused : option string) : Env :=
  mkEnv (Scenario.transport refused) (tool download parts) (λ _, 42).

(** A disk with [song.mp3] above the limit and its parts 0, 1, 2 and 4:
    part 3 is missing. *)
Definition parts_with_gap : World :=
  mkWorld (list_to_map
             (("song.mp3", maxFileSize + 1) ::
              map (λ i, (partFilename "song.mp3" i, 1000)) [0; 1; 2; 4]%nat)) [].

(** A request with a link, from chat 7. *)
Definition request : Message := mkMessage 7 " https://youtu.be/abc ".

End Cases.

(** The report of [err] under [what], if there is an error. *)
Definition report_if (env : Env) (chatID : Z) (what : string)
    (err : option string) (w : World) : list Event :=
  match err with
  | Some e => report_events env chatID what e w
  | None => []
  end.

(** The text with which the handler turns down a message. *)
Definition rejection (message : Message) : Chattable :=
  NewMessage (Chat_ID message) "Please send a valid YouTube video URL.".

(** ** The earlier [splitFile], which cuts the file by bytes

    In this version of the program [splitFile] does not call [ffmpeg]: it
    opens the file and copies it, [chunkSize] bytes at a time, into the
    files [<path>.part0], [<path>.part1], ...  The disk holds the bytes of
    each regular file; it grants every creation and every read, so the
    failures of [os.Create] and of the copy other than the end of the file
    do not occur. *)

Module ByteSplit.

Definition partFilename (filePath : string) (k : Z) : string :=
  filePath +:+ ".part" +:+ fmt_d k.

(** [io.CopyN(partFile, file, n)] on a file read from [offset]: the bytes
    copied, fewer than [n] at the end of the file, none for [n <= 0]. *)
Definition CopyN (content : list Byte.byte) (offset : nat) (n : Z) : list Byte.byte :=
  take (Z.to_nat n) (drop offset content).

(** The loop [for i := int64(0); i < totalSize; i += chunkSize] of
    [splitFile]; [offset] is the read position of the open file and [fuel]
    bounds the number of iterations. *)
Fixpoint copyLoop (fuel : nat) (filePath : string) (content : list Byte.byte)
    (chunkSize i : Z) (offset : nat) (partFiles : list string)
    (disk : gmap string (list Byte.byte))
  : Outcome (list string * option string) * gmap string (list Byte.byte) :=
  match fuel with
  | O => (OutOfFuel, disk)
  | S fuel' =>
      if decide (i < Z.of_nat (length content)) then
        match GoInt.div i chunkSize with
        | None => (Panics "runtime error: integer divide by zero", disk)
        | Some k =>
            let partFilename := partFilename filePath k in
            let copied := CopyN content offset chunkSize in
            copyLoop fuel' filePath content chunkSize
              (GoInt.wrap64 (i + chunkSize)) (offset + length copied)
              (partFiles ++ [partFilename])
              (<[partFilename := copied]> disk)
        end
      else (Returns (partFiles, None), disk)
  end.

Definition splitFile (filePath : string) (chunkSize : Z)
    (disk : gmap string (list Byte.byte))
  : Outcome (list string * option string) * gmap string (list Byte.byte) :=
  match disk !! filePath with
  | None =>
      (Returns ([], Some ("could not open file: open " +:+ filePath
                          +:+ ": no such file or directory")), disk)
  | Some content =>
      copyLoop (S (length content)) filePath content chunkSize 0 0 [] disk
  end.

End ByteSplit.





(** ** The first handler, without a size gate

    In the first version of the program the handler sends the downloaded
    mp3 itself, whatever its size, and [downloadMP3] runs [yt-dlp] without
    reading its output. *)

Module Early.

Section Program.

Variable env : Env.

(** [exec.Command(name, args...).Run()]: the output of the tool is dropped. *)
Definition exec_Run (name : string) (args : list string) : IO (option string) := λ w,
  let '(disk, _, err) := run_tool env w name args in
  (Returns err, mkWorld disk (trace w ++ [EvExec name args])).

Definition downloadMP3 (url : string) (chatID : Z) : IO (string * option string) :=
  timestamp ← time_Now_UnixNano env;
  let filenameTemplate := download_stem chatID timestamp +:+ ".%(ext)s" in
  err ← exec_Run "yt-dlp" ["-x"; "--audio-format"; "mp3"; "-o"; filenameTemplate; url];
  match err with
  | Some e => mret ("", Some e)
  | None => mret (download_stem chatID timestamp +:+ ".mp3", None)
  end.

Definition handleMessage (message : Message) : IO () :=
  let url := TrimSpace (Text message) in
  if isValidYouTubeURL url then
    err ← bot_Send env (NewMessage (Chat_ID message)
                          "Starting to process your request...");
    _ ← log_if_failed err;
    '(mp3FilePath, err) ← downloadMP3 url (Chat_ID message);
    match err with
    | Some e =>
        err ← bot_Send env (NewMessage (Chat_ID message)
                              ("Error downloading MP3: " +:+ e));
        _ ← log_if_failed err;
        log_Println ("Error downloading MP3: " +:+ fmt_err err)
    | None =>
        err ← bot_Send env (NewAudio (Chat_ID message) mp3FilePath);
        _ ← match err with
            | Some e => log_Println ("Error sending audio file: " +:+ e)
            | None => mret ()
            end;
        _ ← os_Remove mp3FilePath;
        mret ()
    end
  else
    err ← bot_Send env (NewMessage (Chat_ID message)
                          "Please send a valid YouTube video URL.");
    log_if_failed err.

End Program.

(** The command line of this version, and what [yt-dlp] answers to the
    request. *)
Definition ytdlp_args (chatID timestamp : Z) (url : string) : list string :=
  ["-x"; "--audio-format"; "mp3"; "-o";
   download_stem chatID timestamp +:+ ".%(ext)s"; url].

Definition download_result (env : Env) (message : Message) (w : World)
  : gmap string Z * string * option string :=
  run_tool env (download_call_world env message w) "yt-dlp"
    (ytdlp_args (Chat_ID message) (request_time env message w)
       (TrimSpace (Text message))).

End Early.

(** * Properties *)

(** ** The string library on examples *)

Example TrimSpace_ascii :
  TrimSpace (bytes [32; 9; 104; 105; 32; 120; 10; 13]%nat) = "hi x".
Proof. vm_compute. reflexivity. Qed.

Example TrimSpace_unicode :
  TrimSpace (bytes [194; 160; 226; 128; 131; 97; 227; 128; 128; 32]%nat) = "a".
Proof. vm_compute. reflexivity. Qed.

Example TrimSpace_keeps_inner :
  TrimSpace "  https://youtu.be/abc  " = "https://youtu.be/abc".
Proof. vm_compute. reflexivity. Qed.

Example fmt_03d_examples :
  map fmt_03d [0; 7; 42; 123; 1000]%nat = ["000"; "007"; "042"; "123"; "1000"].
Proof. vm_compute. reflexivity. Qed.

Example fmt_d_examples :
  map fmt_d [0; 3136; -1001234] = ["0"; "3136"; "-1001234"].
Proof. vm_compute. reflexivity. Qed.

(** ** White space trimming *)

Section Trimming.

Lemma strip_prefix_length (p s s' : string) :
  strip_prefix p s = Some s' →
  String.length s = (String.length p + String.length s')%nat.
Proof.
  revert s. induction p as [|c p IH]; intros s Hs; simpl in Hs.
  - by injection Hs as ->.
  - destruct s as [|d s]; [done|]. case_decide; [|done].
    simpl. by rewrite (IH s).
Qed.

Lemma strip_rune_shorter (runes : list string) (s s' : string) :
  Forall (λ r, r ≠ "") runes →
  strip_rune runes s = Some s' →
  (String.length s' < String.length s)%nat.
Proof.
  induction 1 as [|r rs Hr _ IH]; simpl; [done|].
  destruct (strip_prefix r s) as [rest|] eqn:Hstrip; [|done].
  intros [= ->]. apply strip_prefix_length in Hstrip.
  destruct r; [done|]. simpl in Hstrip. lia.
Qed.

(** With fuel for every byte, nothing to trim is left at the front. *)
Lemma trim_left_complete (runes : list string) (fuel : nat) (s : string) :
  Forall (λ r, r ≠ "") runes →
  (String.length s ≤ fuel)%nat →
  strip_rune runes (trim_left runes fuel s) = None.
Proof.
  intros Hrunes. revert s. induction fuel as [|fuel IH]; intros s Hlen; simpl.
  - destruct s; [|simpl in Hlen; lia].
    clear Hlen. induction Hrunes as [|r rs Hr _ IHr]; simpl; [done|].
    by destruct r.
  - destruct (strip_rune runes s) as [s'|] eqn:Hstrip; [|done].
    apply IH. apply strip_rune_shorter in Hstrip; [lia|done].
Qed.

Lemma space_runes_nonempty : Forall (λ r, r ≠ "") space_runes.
Proof. by repeat constructor. Qed.

(** [TrimSpace] leaves no white space rune at the front. *)
Lemma TrimLeftSpace_complete (s : string) :
  strip_rune space_runes (TrimLeftSpace s) = None.
Proof. by apply trim_left_complete; [apply space_runes_nonempty|]. Qed.

End Trimming.

(** ** The segment-duration planner *)

Section Planner.

Import GoInt.

Lemma wrap64_id (x : Z) : in_int64 x → wrap64 x = x.
Proof.
  unfold in_int64, min_int64, max_int64, wrap64. intros Hx.
  rewrite Z.mod_small; lia.
Qed.

Lemma quot_abs_le (a b : Z) : b ≠ 0 → Z.abs (a ÷ b) ≤ Z.abs a.
Proof.
  intros Hb. rewrite <- Z.quot_abs by done.
  assert (0 < Z.abs b) by lia.
  rewrite Z.quot_div_nonneg by lia.
  apply Z.div_le_upper_bound; nia.
Qed.

Lemma quot_in_int64 (a b : Z) :
  in_int64 a → b ≠ 0 → (a ≠ min_int64 ∨ b ≠ -1) → in_int64 (a ÷ b).
Proof.
  unfold in_int64, min_int64, max_int64. intros Ha Hb Hov.
  pose proof (quot_abs_le a b Hb) as Habs.
  destruct (decide (a = - 2 ^ 63)) as [->|Hne]; [|lia].
  destruct Hov as [?|Hb1]; [done|].
  destruct (decide (b = 1)) as [->|Hb2].
  { rewrite Z.quot_1_r. lia. }
  assert (Z.abs ((- 2 ^ 63) ÷ b) ≤ 2 ^ 62); [|lia].
  rewrite <- Z.quot_abs by done.
  rewrite Z.quot_div_nonneg by lia.
  apply Z.div_le_upper_bound; [lia|].
  change (Z.abs (- 2 ^ 63)) with (2 * 2 ^ 62). nia.
Qed.

Lemma div_Some (a b : Z) :
  in_int64 a → b ≠ 0 → (a ≠ min_int64 ∨ b ≠ -1) → div a b = Some (a ÷ b).
Proof.
  intros Ha Hb Hov. unfold div. rewrite decide_False by done.
  by rewrite wrap64_id by by apply quot_in_int64.
Qed.

(** The function is the nested truncated quotient whenever the computed
    rate [bitrateKbps / 8] is not zero, and panics otherwise. *)
Lemma calculateSegmentTime_eq (chunkSize bitrateKbps : Z) :
  in_int64 chunkSize → in_int64 bitrateKbps →
  calculateSegmentTime chunkSize bitrateKbps =
    if decide (bitrateKbps ÷ 8 = 0) then None
    else Some ((chunkSize ÷ 1024) ÷ (bitrateKbps ÷ 8)).
Proof.
  intros Hc Hb. unfold calculateSegmentTime.
  rewrite (div_Some chunkSize 1024), (div_Some bitrateKbps 8) by (done || lia).
  simpl. unfold div at 1. case_decide as Hz; [done|]. simpl.
  rewrite wrap64_id; [done|].
  apply quot_in_int64; [by apply quot_in_int64; (done || lia)|done|].
  left. pose proof (quot_abs_le chunkSize 1024 ltac:(lia)).
  unfold in_int64, min_int64, max_int64 in *.
  assert (Z.abs (chunkSize ÷ 1024) ≤ 2 ^ 53); [|lia].
  rewrite <- (Z.quot_abs chunkSize 1024) by lia.
  rewrite Z.quot_div_nonneg by lia.
  apply Z.div_le_upper_bound; lia.
Qed.

(** C1 (as amended): for a budget [0 < chunkSize] and a bitrate of at
    least 8 (both in the range of their Go types) the planner returns a
    duration [v] that is maximal for the budget at the rate of
    [bitrateKbps / 8] kilobytes of 1024 bytes per second:
    [v * rate <= chunkSize < (v + 1) * rate]. *)
Theorem calculateSegmentTime_maximal (chunkSize bitrateKbps : Z) :
  0 < chunkSize ≤ max_int64 →
  8 ≤ bitrateKbps ≤ max_int64 →
  ∃ v, calculateSegmentTime chunkSize bitrateKbps = Some v ∧
       v * rateBytesPerSecond bitrateKbps ≤ chunkSize ∧
       (v + 1) * rateBytesPerSecond bitrateKbps > chunkSize.
Proof.
  intros Hc Hb. unfold max_int64 in *.
  assert (1 ≤ bitrateKbps ÷ 8) as Hr.
  { rewrite Z.quot_div_nonneg by lia. apply Z.div_le_lower_bound; lia. }
  exists ((chunkSize ÷ 1024) ÷ (bitrateKbps ÷ 8)). split.
  - rewrite calculateSegmentTime_eq by (unfold in_int64, min_int64, max_int64; lia).
    by rewrite decide_False by lia.
  - unfold rateBytesPerSecond. set (r := bitrateKbps ÷ 8) in *.
    rewrite (Z.quot_div_nonneg chunkSize) by lia.
    rewrite Z.quot_div_nonneg by (try apply Z.div_pos; lia).
    rewrite Z.div_div by lia.
    pose proof (Z.mul_div_le chunkSize (1024 * r) ltac:(lia)).
    pose proof (Z.mul_succ_div_gt chunkSize (1024 * r) ltac:(lia)).
    lia.
Qed.

Lemma calculateSegmentTime_maximal_witness :
  ∃ v, calculateSegmentTime maxFileSize bitrateKBps = Some v ∧
       v * rateBytesPerSecond bitrateKBps ≤ maxFileSize ∧
       (v + 1) * rateBytesPerSecond bitrateKBps > maxFileSize.
Proof.
  apply (calculateSegmentTime_maximal maxFileSize bitrateKBps);
    unfold maxFileSize, bitrateKBps, max_int64; lia.
Defined.

(** C1 fails as stated: with a positive budget and the positive bitrate 1
    the computed rate is [1 / 8 = 0] and the division panics, so no
    duration is returned, whatever byte rate is meant. *)
Lemma calculateSegmentTime_small_bitrate_panics :
  0 < 1024 ∧ 0 < 1 ∧
  ∀ rate : Z,
    ¬ ∃ v, calculateSegmentTime 1024 1 = Some v ∧
           v * rate ≤ 1024 ∧ (v + 1) * rate > 1024.
Proof.
  split; [lia|]. split; [lia|]. intros rate [v [Hv _]].
  vm_compute in Hv. discriminate.
Qed.

(** At the rate of 1000 bits per kilobit, the production constants give a
    duration that is safe but not maximal: one more second still fits. *)
Example calculateSegmentTime_decimal_rate :
  calculateSegmentTime maxFileSize bitrateKBps = Some 3136 ∧
  (3136 + 1) * (bitrateKBps * 1000 / 8) ≤ maxFileSize.
Proof. split; [vm_compute; reflexivity | apply Z.leb_le; vm_compute; reflexivity]. Qed.

(** A bitrate that is not a multiple of 8 is rounded down, and the planned
    duration then exceeds the budget at the true rate. *)
Example calculateSegmentTime_truncated_rate :
  calculateSegmentTime (15 * 1024) 15 = Some 15 ∧
  15 * (15 * 1000 / 8) > 15 * 1024.
Proof. split; vm_compute; reflexivity. Qed.

(** When the computed rate [bitrateKbps / 8] is zero, which is so for every
    bitrate strictly between -8 and 8, the division panics. *)
Lemma calculateSegmentTime_zero_rate_panics (chunkSize bitrateKbps : Z) :
  in_int64 chunkSize → in_int64 bitrateKbps →
  -8 < bitrateKbps < 8 →
  calculateSegmentTime chunkSize bitrateKbps = None.
Proof.
  intros Hc Hb Hz. rewrite calculateSegmentTime_eq by done.
  rewrite decide_True; [done|]. apply Z.quot_small_iff; lia.
Qed.

(** C4 (as amended): the planner has no error result.  For a budget that
    is not negative and a bitrate of at least 8 it returns a duration that
    is not negative and is 0 exactly when the budget in kilobytes is below
    the rate in kilobytes per second; for a bitrate of at most -8 it
    returns a duration that is not positive. *)
Theorem calculateSegmentTime_unguarded (chunkSize bitrateKbps : Z) :
  in_int64 chunkSize → in_int64 bitrateKbps →
  0 ≤ chunkSize →
  (8 ≤ bitrateKbps →
     ∃ v, calculateSegmentTime chunkSize bitrateKbps = Some v ∧ 0 ≤ v ∧
          (v = 0 ↔ chunkSize ÷ 1024 < bitrateKbps ÷ 8)) ∧
  (bitrateKbps ≤ -8 →
     ∃ v, calculateSegmentTime chunkSize bitrateKbps = Some v ∧ v ≤ 0).
Proof.
  intros Hc Hb Hc0. rewrite calculateSegmentTime_eq by done.
  assert (0 ≤ chunkSize ÷ 1024) as Hk by (apply Z.quot_pos; lia).
  split.
  - intros Hpos.
    assert (1 ≤ bitrateKbps ÷ 8) as Hr.
    { rewrite Z.quot_div_nonneg by lia. apply Z.div_le_lower_bound; lia. }
    rewrite decide_False by lia. eexists; split; [done|].
    split; [apply Z.quot_pos; lia|].
    rewrite Z.quot_small_iff by lia.
    rewrite !Z.abs_eq by lia. done.
  - intros Hneg.
    assert (bitrateKbps ÷ 8 ≤ -1) as Hr.
    { rewrite <- (Z.opp_involutive bitrateKbps), Z.quot_opp_l by lia.
      rewrite Z.quot_div_nonneg by lia.
      assert (1 ≤ - bitrateKbps / 8) by (apply Z.div_le_lower_bound; lia). lia. }
    rewrite decide_False by lia. eexists; split; [done|].
    rewrite <- (Z.opp_involutive (bitrateKbps ÷ 8)), Z.quot_opp_r by lia.
    assert (0 ≤ (chunkSize ÷ 1024) ÷ - (bitrateKbps ÷ 8)) by (apply Z.quot_pos; lia).
    lia.
Qed.

Lemma calculateSegmentTime_unguarded_witness :
  (∃ v, calculateSegmentTime 1023 bitrateKBps = Some v ∧ 0 ≤ v ∧
        (v = 0 ↔ 1023 ÷ 1024 < bitrateKBps ÷ 8)) ∧
  (∃ v, calculateSegmentTime maxFileSize (-128) = Some v ∧ v ≤ 0).
Proof.
  assert (∀ x, -2 ^ 62 ≤ x ≤ 2 ^ 62 → in_int64 x) as Hin.
  { unfold in_int64, min_int64, max_int64. lia. }
  split.
  - apply (calculateSegmentTime_unguarded 1023 bitrateKBps);
      try apply Hin; unfold bitrateKBps; lia.
  - apply (calculateSegmentTime_unguarded maxFileSize (-128));
      try apply Hin; unfold maxFileSize; lia.
Defined.

(** C4 fails as stated: a budget below one kilobyte makes the planner
    return the duration 0, a zero rate makes it panic instead of failing
    with an error value, and a negative rate yields a negative duration. *)
Lemma calculateSegmentTime_returns_zero :
  calculateSegmentTime 1023 bitrateKBps = Some 0 ∧
  calculateSegmentTime maxFileSize 0 = None ∧
  calculateSegmentTime maxFileSize (-128) = Some (-3136).
Proof. vm_compute. done. Qed.

End Planner.

(** ** URL validation *)

Section Validation.

Lemma HasPrefix_spec (s prefix : string) :
  HasPrefix s prefix = true ↔ ∃ post, s = prefix +:+ post.
Proof.
  revert s. induction prefix as [|c p IH]; intros s; simpl.
  - split; [intros _; by exists s | done].
  - destruct s as [|d s'].
    + split; [done | intros [post [=]]].
    + case_decide as Hcd.
      * subst d. rewrite IH. split; intros [post Hpost]; exists post.
        -- by rewrite Hpost.
        -- by injection Hpost.
      * split; [done | intros [post [=]]; congruence].
Qed.

Lemma Contains_spec (s substr : string) :
  Contains s substr = true ↔ ∃ pre post, s = pre +:+ substr +:+ post.
Proof.
  induction s as [|c s' IH]; simpl.
  - rewrite orb_false_r, HasPrefix_spec. split.
    + intros [post ->]. by exists "", post.
    + intros [pre [post Heq]]. destruct pre; [by exists post | done].
  - rewrite orb_true_iff, HasPrefix_spec, IH. split.
    + intros [[post ->] | [pre [post ->]]].
      * by exists "", post.
      * by exists (String c pre), post.
    + intros [pre [post Heq]]. destruct pre as [|d pre]; simpl in Heq.
      * left. by exists post.
      * right. injection Heq as -> ->. by exists pre, post.
Qed.

(** C10: validation accepts exactly the texts that, once trimmed, contain
    one of the two fragments at any offset; a URL of another host that
    carries the fragment in its query string is therefore accepted. *)
Theorem isValidYouTubeURL_substring :
  (∀ text : string,
     isValidYouTubeURL (TrimSpace text) = true ↔
       (∃ pre post, TrimSpace text = pre +:+ "youtube.com/watch" +:+ post) ∨
       (∃ pre post, TrimSpace text = pre +:+ "youtu.be/" +:+ post)) ∧
  (HasPrefix "https://example.com/?next=youtu.be/" "https://example.com/" = true ∧
   isValidYouTubeURL (TrimSpace "https://example.com/?next=youtu.be/") = true).
Proof.
  split.
  - intros text. unfold isValidYouTubeURL.
    by rewrite orb_true_iff, !Contains_spec.
  - split; vm_compute; reflexivity.
Qed.

End Validation.

(** ** Delivery *)

Ltac io_simpl :=
  unfold eval, panic, log_if_failed;
  unfold bot_Send, os_Remove, os_Stat, exec_CombinedOutput, exec_test_f,
    time_Now_UnixNano, log_Println, disk_size, record;
  unfold mbind, IO_bind, mret, IO_ret;
  cbn [fst snd files trace].

Section Delivery.

Context (env : Env).

Lemma sendFile_run (filePath : string) (chatID : Z) (w : World) :
  sendFile env filePath chatID w =
    (Returns (tg_send env w (NewAudio chatID filePath)),
     after_delivery chatID [filePath] w).
Proof.
  unfold sendFile, after_delivery. io_simpl.
  by rewrite <- app_assoc.
Qed.

Lemma after_delivery_nil (chatID : Z) (w : World) :
  after_delivery chatID [] w = w.
Proof.
  destruct w as [disk tr]. unfold after_delivery; simpl.
  by rewrite app_nil_r.
Qed.

Lemma after_delivery_cons (chatID : Z) (part : string) (rest : list string)
    (w : World) :
  after_delivery chatID (part :: rest) w =
    after_delivery chatID rest (after_delivery chatID [part] w).
Proof.
  unfold after_delivery, delivery_events; simpl.
  by rewrite <- app_assoc.
Qed.

Lemma after_delivery_trace (chatID : Z) (parts : list string) (w : World) :
  new_events w (after_delivery chatID parts w) = delivery_events chatID parts.
Proof. unfold new_events; simpl. by rewrite drop_app_length. Qed.

(** C5: whatever the transport answers, [sendFile] makes the send attempt,
    then at once removes the local file, and returns the transport's
    answer; the file is gone from the disk afterwards. *)
Theorem sendFile_always_deletes (filePath : string) (chatID : Z) (w : World) :
  ∃ w',
    sendFile env filePath chatID w =
      (Returns (tg_send env w (NewAudio chatID filePath)), w') ∧
    new_events w w' = [EvSend (NewAudio chatID filePath); EvRemove filePath] ∧
    files w' = delete filePath (files w) ∧
    files w' !! filePath = None.
Proof.
  exists (after_delivery chatID [filePath] w).
  split; [apply sendFile_run|].
  split; [apply after_delivery_trace|].
  split; [done|]. simpl. apply lookup_delete_eq.
Qed.

Lemma sendParts_all_accepted (parts : list string) (chatID : Z) (w : World) :
  (∀ i part, parts !! i = Some part →
     tg_send env (after_delivery chatID (take i parts) w) (NewAudio chatID part) = None) →
  sendParts env parts chatID w = (Returns None, after_delivery chatID parts w).
Proof.
  revert w. induction parts as [|part rest IH]; intros w Hok; simpl.
  - by rewrite after_delivery_nil.
  - unfold mbind, IO_bind. rewrite sendFile_run.
    pose proof (Hok 0%nat part eq_refl) as H0.
    simpl in H0. rewrite after_delivery_nil in H0. rewrite H0.
    rewrite IH, <- after_delivery_cons; [done|].
    intros i p Hi. specialize (Hok (S i) p Hi). simpl in Hok.
    by rewrite after_delivery_cons in Hok.
Qed.

Lemma sendParts_first_failure (parts : list string) (chatID : Z) (w : World)
    (k : nat) (cause : string) :
  first_failure env chatID parts w k cause →
  sendParts env parts chatID w =
    (Returns (Some ("error sending file part: " +:+ cause)),
     after_delivery chatID (take (S k) parts) w).
Proof.
  revert w k. induction parts as [|part rest IH]; intros w k [Hbefore [p [Hk Hp]]].
  - done.
  - simpl. unfold mbind, IO_bind. rewrite sendFile_run.
    destruct k as [|k]; simpl in Hk, Hp.
    + injection Hk as ->. rewrite after_delivery_nil in Hp. rewrite Hp.
      by rewrite take_0.
    + pose proof (Hbefore 0%nat part ltac:(lia) eq_refl) as H0.
      simpl in H0. rewrite after_delivery_nil in H0. rewrite H0.
      rewrite (IH _ k), <- after_delivery_cons; [done|].
      split.
      * intros i q Hi Hq. specialize (Hbefore (S i) q ltac:(lia) Hq).
        simpl in Hbefore. by rewrite after_delivery_cons in Hbefore.
      * exists p. split; [done|]. by rewrite after_delivery_cons in Hp.
Qed.

(** Every run of the loop returns, and has delivered a prefix of the parts. *)
Lemma sendParts_prefix (parts : list string) (chatID : Z) (w : World) :
  ∃ (k : nat) (err : option string),
    sendParts env parts chatID w =
      (Returns err, after_delivery chatID (take k parts) w) ∧
    (k ≤ length parts)%nat ∧ (err = None → k = length parts).
Proof.
  revert w. induction parts as [|part rest IH]; intros w; simpl.
  - exists 0%nat, None. by rewrite after_delivery_nil.
  - unfold mbind, IO_bind. rewrite sendFile_run.
    destruct (tg_send env w (NewAudio chatID part)) as [cause|].
    + exists 1%nat, (Some ("error sending file part: " +:+ cause)).
      simpl. rewrite take_0. split; [done|]. split; [lia|done].
    + destruct (IH (after_delivery chatID [part] w)) as (k & err & Hrun & Hk & Hall).
      exists (S k), err. simpl. rewrite Hrun, <- after_delivery_cons.
      split; [done|]. split; [lia|]. intros Herr. by rewrite Hall.
Qed.

End Delivery.

Section DeliveryFailure.

Context (env : Env).

(** C3 (as amended): when the send at index [k] is the first one the
    transport refuses, the loop has sent (and then removed) exactly the
    parts at the indices [0 .. k], in order, and nothing after them; it
    returns the error "error sending file part: " followed by the
    transport's cause, a text in which the index does not occur. *)
Theorem sendParts_stops_at_first_failure (parts : list string) (chatID : Z)
    (w : World) (k : nat) (cause : string) :
  first_failure env chatID parts w k cause →
  ∃ w',
    sendParts env parts chatID w =
      (Returns (Some ("error sending file part: " +:+ cause)), w') ∧
    new_events w w' = delivery_events chatID (take (S k) parts).
Proof.
  intros Hfail. eexists. split.
  - by apply sendParts_first_failure.
  - apply after_delivery_trace.
Qed.

End DeliveryFailure.

Lemma sendParts_stops_at_first_failure_witness :
  ∃ w',
    sendParts (Scenario.env 3 (Some "song.mp3.part001.mp3"))
      (part_names "song.mp3" 3) 7 Scenario.big_song =
      (Returns (Some "error sending file part: timeout"), w') ∧
    new_events Scenario.big_song w' =
      [EvSend (NewAudio 7 "song.mp3.part000.mp3"); EvRemove "song.mp3.part000.mp3";
       EvSend (NewAudio 7 "song.mp3.part001.mp3"); EvRemove "song.mp3.part001.mp3"].
Proof.
  apply (sendParts_stops_at_first_failure
           (Scenario.env 3 (Some "song.mp3.part001.mp3"))
           (part_names "song.mp3" 3) 7 Scenario.big_song 1 "timeout").
  split.
  - intros i part Hi Hpart.
    destruct i as [|i]; [|lia].
    vm_compute in Hpart. injection Hpart as <-. reflexivity.
  - exists "song.mp3.part001.mp3". split; reflexivity.
Defined.

(** C3 fails as stated: a delivery whose first refused send is at index 0
    and one whose first refused send is at index 1 return the very same
    error, so the returned failure does not identify the index. *)
Lemma sendParts_error_hides_index :
  let parts := part_names "song.mp3" 3 in
  let envA := Scenario.env 3 (Some "song.mp3.part000.mp3") in
  let envB := Scenario.env 3 (Some "song.mp3.part001.mp3") in
  first_failure envA 7 parts Scenario.big_song 0 "timeout" ∧
  first_failure envB 7 parts Scenario.big_song 1 "timeout" ∧
  returned (sendParts envA parts 7 Scenario.big_song) =
    Some (Some "error sending file part: timeout") ∧
  returned (sendParts envB parts 7 Scenario.big_song) =
    Some (Some "error sending file part: timeout").
Proof.
  cbv zeta. repeat split.
  - intros i part Hi. lia.
  - exists "song.mp3.part000.mp3". split; reflexivity.
  - intros i part Hi Hpart. destruct i as [|i]; [|lia].
    vm_compute in Hpart. injection Hpart as <-. reflexivity.
  - exists "song.mp3.part001.mp3". split; reflexivity.
Qed.

(** ** Part names *)

Section PartNames.

Lemma string_length_app (s t : string) :
  String.length (s +:+ t) = (String.length s + String.length t)%nat.
Proof. induction s as [|c s IH]; simpl; [done | by rewrite IH]. Qed.

Lemma string_app_inj_r (s1 s2 t : string) : s1 +:+ t = s2 +:+ t → s1 = s2.
Proof.
  revert s2. induction s1 as [|c s1 IH]; intros [|d s2] Heq.
  - done.
  - apply (f_equal String.length) in Heq.
    rewrite !string_length_app in Heq. simpl in Heq. lia.
  - apply (f_equal String.length) in Heq.
    rewrite !string_length_app in Heq. simpl in Heq. lia.
  - change (String c (s1 +:+ t) = String d (s2 +:+ t)) in Heq.
    injection Heq as -> Heq. f_equal. by apply IH.
Qed.

Lemma string_app_ne_self (s t : string) : t ≠ "" → s +:+ t ≠ s.
Proof.
  intros Ht Heq. apply (f_equal String.length) in Heq.
  rewrite string_length_app in Heq. destruct t; [done | simpl in Heq; lia].
Qed.

(** The decimal form of a positive number starts with a digit other than 0. *)
Lemma pretty_N_go_head (x : N) (s : string) :
  (0 < x)%N → ∃ c s', pretty_N_go x s = String c s' ∧ c ≠ Ascii.ascii_of_nat 48.
Proof.
  revert s. induction (N.lt_wf_0 x) as [x _ IH]; intros s Hx.
  rewrite pretty_N_go_step by done.
  destruct (decide (x < 10)%N) as [Hsmall|Hbig].
  - rewrite N.div_small, pretty_N_go_0 by done.
    rewrite N.mod_small by done. eexists _, _. split; [done|].
    assert (x = 1 ∨ x = 2 ∨ x = 3 ∨ x = 4 ∨ x = 5 ∨ x = 6
            ∨ x = 7 ∨ x = 8 ∨ x = 9)%N as Hcases by lia.
    by destruct_or!; subst x.
  - apply IH.
    + apply N.div_lt; lia.
    + apply N.div_str_pos; lia.
Qed.

Lemma pretty_nat_head (i : nat) (s : string) :
  (0 < i)%nat → pretty i ≠ "0" +:+ s.
Proof.
  intros Hi Heq. unfold pretty, pretty_nat, pretty, pretty_N in Heq.
  rewrite decide_False in Heq by lia.
  destruct (pretty_N_go_head (N.of_nat i) "" ltac:(lia)) as (c & s' & Hgo & Hc).
  rewrite Hgo in Heq.
  change ("0" +:+ s) with (String (Ascii.ascii_of_nat 48) s) in Heq.
  congruence.
Qed.

Lemma fmt_03d_inj (i j : nat) : fmt_03d i = fmt_03d j → i = j.
Proof.
  assert (∀ (b : nat) (s : string), (10 ≤ b)%nat → "0" +:+ s ≠ pretty b) as Hpad.
  { intros b s Hb Heq. by apply (pretty_nat_head b s); [lia|]. }
  unfold fmt_03d. intros Heq. repeat case_decide.
  - by apply (inj pretty), (inj (String.app "00")).
  - exfalso. apply (inj (String.app "0")) in Heq.
    by apply (Hpad j (pretty i)); [lia|].
  - exfalso. by apply (Hpad j ("0" +:+ pretty i)); [lia|].
  - exfalso. apply (inj (String.app "0")) in Heq.
    by apply (Hpad i (pretty j)); [lia|].
  - by apply (inj pretty), (inj (String.app "0")).
  - exfalso. by apply (Hpad j (pretty i)); [lia|].
  - exfalso. by apply (Hpad i ("0" +:+ pretty j)); [lia|].
  - exfalso. by apply (Hpad i (pretty j)); [lia|].
  - by apply (inj pretty).
Qed.

Lemma partFilename_inj (filePath : string) (i j : nat) :
  partFilename filePath i = partFilename filePath j → i = j.
Proof.
  unfold partFilename. intros Heq.
  apply (inj (String.app filePath)), (inj (String.app ".part")) in Heq.
  by apply fmt_03d_inj, string_app_inj_r with ".mp3".
Qed.

Lemma partFilename_ne_source (filePath : string) (i : nat) :
  partFilename filePath i ≠ filePath.
Proof. unfold partFilename. by apply string_app_ne_self. Qed.

(** A finite disk lacks some part: the first missing index exists and is
    at most the number of files. *)
Lemma first_missing_exists (disk : gmap string Z) (filePath : string) :
  ∃ n, (n ≤ size disk)%nat ∧ first_missing disk filePath n.
Proof.
  assert (∀ m : nat,
            (∀ i, (i < m)%nat → is_Some (disk !! partFilename filePath i)) ∨
            (∃ n, (n < m)%nat ∧ first_missing disk filePath n)) as Hsearch.
  { induction m as [|m [Hall|(n & Hn & Hfm)]].
    - left. intros i Hi. lia.
    - destruct (disk !! partFilename filePath m) as [sz|] eqn:Hm.
      + left. intros i Hi. destruct (decide (i = m)) as [->|]; [by eexists|].
        apply Hall. lia.
      + right. exists m. split; [lia|]. by split.
    - right. exists n. split; [lia|done]. }
  destruct (Hsearch (S (size disk))) as [Hall|(n & Hn & Hfm)].
  - exfalso.
    set (names := partFilename filePath <$> seq 0 (S (size disk))).
    assert (NoDup names) as Hnodup.
    { apply NoDup_fmap_2; [|apply NoDup_seq].
      intros i j. apply partFilename_inj. }
    assert (list_to_set names ⊆ dom disk) as Hsub.
    { intros name [i [-> Hi]]%elem_of_list_to_set%list_elem_of_fmap.
      apply elem_of_dom, Hall. apply elem_of_seq in Hi. lia. }
    apply subseteq_size in Hsub.
    rewrite size_list_to_set, size_dom in Hsub by done.
    unfold names in Hsub. rewrite length_fmap, length_seq in Hsub. lia.
  - exists n. split; [lia|done].
Qed.

Lemma first_missing_unique (disk : gmap string Z) (filePath : string) (n m : nat) :
  first_missing disk filePath n → first_missing disk filePath m → n = m.
Proof.
  intros [Hn Hn'] [Hm Hm'].
  destruct (Nat.lt_trichotomy n m) as [Hlt|[->|Hlt]]; [|done|].
  - apply Hm in Hlt. rewrite Hn' in Hlt. by destruct Hlt.
  - apply Hn in Hlt. rewrite Hm' in Hlt. by destruct Hlt.
Qed.

End PartNames.

(** ** Segmentation *)

Section Segmentation.

Context (env : Env).

Lemma probeParts_run (filePath : string) (n fuel i : nat) (acc : list string)
    (w : World) :
  (i ≤ n)%nat →
  (∀ j, (i ≤ j < n)%nat → is_Some (files w !! partFilename filePath j)) →
  files w !! partFilename filePath n = None →
  (n - i < fuel)%nat →
  probeParts fuel filePath i acc w =
    (Returns (acc ++ map (partFilename filePath) (seq i (n - i))),
     mkWorld (files w)
             (trace w ++ map (probe_event filePath) (seq i (S (n - i))))).
Proof.
  revert i acc w. induction fuel as [|fuel IH]; intros i acc w Hin Hsome Hnone Hfuel.
  { lia. }
  simpl. io_simpl.
  destruct (decide (i = n)) as [->|Hne].
  - rewrite Hnone, Nat.sub_diag. simpl. by rewrite app_nil_r.
  - destruct (Hsome i ltac:(lia)) as [sz Hsz]. rewrite Hsz.
    rewrite (IH (S i)); simpl; [|lia|intros j Hj; apply Hsome; lia|done|lia].
    replace (n - i)%nat with (S (n - S i)) by lia. simpl.
    by rewrite <- !app_assoc.
Qed.

Lemma splitFile_run_ok (filePath : string) (chunkSize bitrateKbps : Z)
    (w : World) (t : Z) (disk : gmap string Z) (out : string) (n : nat) :
  calculateSegmentTime chunkSize bitrateKbps = Some t →
  run_tool env (record (splitting_log t) w) "ffmpeg" (ffmpeg_args filePath t)
    = (disk, out, None) →
  first_missing disk filePath n →
  splitFile env filePath chunkSize bitrateKbps w =
    (Returns (part_names filePath n, None),
     mkWorld disk
       (trace w ++ [splitting_log t; EvExec "ffmpeg" (ffmpeg_args filePath t)]
                ++ map (probe_event filePath) (seq 0 (S n))
                ++ [split_done_log n])).
Proof.
  intros Ht Htool Hn.
  destruct (first_missing_exists disk filePath) as (m & Hm & Hfm).
  rewrite (first_missing_unique _ _ _ _ Hfm Hn) in Hm. clear m Hfm.
  destruct Hn as [Hsome Hnone].
  unfold splitFile. rewrite Ht. io_simpl.
  unfold splitting_log, ffmpeg_args, record in Htool. rewrite Htool.
  cbn [fst snd files trace].
  rewrite (probeParts_run filePath n); cbn [fst snd files trace];
    [|lia|intros j Hj; apply Hsome; lia|done|lia].
  rewrite Nat.sub_0_r. unfold part_names, split_done_log, splitting_log, ffmpeg_args.
  rewrite app_nil_l, length_map, length_seq.
  by rewrite <- !app_assoc.
Qed.

Lemma splitFile_run_err (filePath : string) (chunkSize bitrateKbps : Z)
    (w : World) (t : Z) (disk : gmap string Z) (out e : string) :
  calculateSegmentTime chunkSize bitrateKbps = Some t →
  run_tool env (record (splitting_log t) w) "ffmpeg" (ffmpeg_args filePath t)
    = (disk, out, Some e) →
  splitFile env filePath chunkSize bitrateKbps w =
    (Returns ([], Some e),
     mkWorld disk
       (trace w ++ [splitting_log t; EvExec "ffmpeg" (ffmpeg_args filePath t);
                    EvLog ("Error splitting file with ffmpeg: " +:+ e
                           +:+ String (Ascii.ascii_of_nat 10) out)])).
Proof.
  intros Ht Htool.
  unfold splitFile. rewrite Ht. io_simpl.
  unfold splitting_log, ffmpeg_args, record in Htool. rewrite Htool.
  cbn [fst snd files trace]. unfold splitting_log, ffmpeg_args.
  by rewrite <- !app_assoc.
Qed.

End Segmentation.

Section SegmentationResult.

Context (env : Env).

(** C2 (as amended): [splitFile] returns the error of the external
    segmentation call and no other: when that call succeeds and the probe
    finds no part at index 0, the result is success, a nil error, with an
    empty part list. *)
Theorem splitFile_returns_tool_error (filePath : string)
    (chunkSize bitrateKbps : Z) (w : World) (t : Z) (disk : gmap string Z)
    (out : string) (err : option string) :
  calculateSegmentTime chunkSize bitrateKbps = Some t →
  run_tool env (record (splitting_log t) w) "ffmpeg" (ffmpeg_args filePath t)
    = (disk, out, err) →
  ∃ partFiles,
    returned (splitFile env filePath chunkSize bitrateKbps w) = Some (partFiles, err) ∧
    (err = None → disk !! partFilename filePath 0 = None → partFiles = []).
Proof.
  intros Ht Htool. destruct err as [e|].
  - exists []. by rewrite (splitFile_run_err env _ _ _ _ t disk out e).
  - destruct (first_missing_exists disk filePath) as (n & _ & Hn).
    exists (part_names filePath n).
    rewrite (splitFile_run_ok env _ _ _ _ t disk out n) by done.
    split; [done|]. intros _ Hzero.
    destruct n as [|n]; [done|].
    destruct Hn as [Hsome _]. specialize (Hsome 0%nat ltac:(lia)).
    rewrite Hzero in Hsome. by destruct Hsome.
Qed.

(** [splitFile] always comes back: the probing loop never runs out of
    fuel, and the only way not to return is the panic of the planner. *)
Lemma splitFile_total (filePath : string) (chunkSize bitrateKbps : Z) (w : World) :
  (∃ r w', splitFile env filePath chunkSize bitrateKbps w = (Returns r, w')) ∨
  (calculateSegmentTime chunkSize bitrateKbps = None ∧
   splitFile env filePath chunkSize bitrateKbps w
     = (Panics "runtime error: integer divide by zero", w)).
Proof.
  destruct (calculateSegmentTime chunkSize bitrateKbps) as [t|] eqn:Ht.
  - left.
    destruct (run_tool env (record (splitting_log t) w) "ffmpeg"
                (ffmpeg_args filePath t)) as [[disk out] [e|]] eqn:Htool.
    + eexists _, _. by apply (splitFile_run_err env _ _ _ _ t disk out e).
    + destruct (first_missing_exists disk filePath) as (n & _ & Hn).
      eexists _, _. by apply (splitFile_run_ok env _ _ _ _ t disk out n).
  - right. split; [done|]. unfold splitFile. by rewrite Ht.
Qed.

End SegmentationResult.

Lemma splitFile_returns_tool_error_witness :
  ∃ partFiles,
    returned (splitFile (Scenario.env 0 None) "song.mp3" maxFileSize bitrateKBps
                Scenario.big_song) = Some (partFiles, None) ∧
    (@None string = None →
     files Scenario.big_song !! partFilename "song.mp3" 0 = None →
     partFiles = []).
Proof.
  apply (splitFile_returns_tool_error (Scenario.env 0 None) "song.mp3"
           maxFileSize bitrateKBps Scenario.big_song 3136
           (files Scenario.big_song) "done" None).
  - vm_compute. reflexivity.
  - reflexivity.
Defined.

(** C2 fails as stated: the segmentation call succeeds, no part file is on
    the disk, and [splitFile] reports success with an empty part list. *)
Lemma splitFile_empty_success :
  let env := Scenario.env 0 None in
  let w := Scenario.big_song in
  (run_tool env (record (splitting_log 3136) w) "ffmpeg"
     (ffmpeg_args "song.mp3" 3136)).2 = None ∧
  returned (splitFile env "song.mp3" maxFileSize bitrateKBps w) = Some ([], None).
Proof. split; vm_compute; reflexivity. Qed.

(** ** The size gate *)

Section SizeGate.

Context (env : Env).

Lemma new_events_app (w : World) (disk : gmap string Z) (evs : list Event) :
  new_events w (mkWorld disk (trace w ++ evs)) = evs.
Proof. unfold new_events; simpl. by rewrite drop_app_length. Qed.

Lemma planned_segment_time : calculateSegmentTime maxFileSize bitrateKBps = Some 3136.
Proof. vm_compute. reflexivity. Qed.

Lemma checkAndSendFile_direct (filePath : string) (chatID : Z) (w : World) (sz : Z) :
  files w !! filePath = Some sz →
  sz ≤ maxFileSize →
  checkAndSendFile env filePath chatID w =
    (Returns (String.app "error sending file: " <$>
                tg_send env (record (EvStat filePath) w) (NewAudio chatID filePath)),
     after_delivery chatID [filePath] (record (EvStat filePath) w)).
Proof.
  intros Hsz Hle. unfold checkAndSendFile. io_simpl. rewrite Hsz.
  rewrite decide_False by lia.
  fold (record (EvStat filePath) w). rewrite sendFile_run.
  by destruct (tg_send env _ _).
Qed.

Lemma checkAndSendFile_split_err (filePath : string) (chatID : Z) (w : World)
    (sz : Z) (disk : gmap string Z) (out e : string) :
  files w !! filePath = Some sz →
  sz > maxFileSize →
  run_tool env (ffmpeg_call_world filePath w) "ffmpeg" (ffmpeg_args filePath 3136)
    = (disk, out, Some e) →
  checkAndSendFile env filePath chatID w =
    (Returns (Some ("error splitting file: " +:+ e)),
     mkWorld disk
       (trace w ++ [EvStat filePath; exceeds_log; splitting_log 3136;
                    EvExec "ffmpeg" (ffmpeg_args filePath 3136);
                    EvLog ("Error splitting file with ffmpeg: " +:+ e
                           +:+ String (Ascii.ascii_of_nat 10) out)])).
Proof.
  intros Hsz Hgt Htool. unfold checkAndSendFile. io_simpl. rewrite Hsz.
  rewrite decide_True by lia.
  match goal with
  | |- context [splitFile env _ _ _ ?w1] =>
      change w1 with (split_call_world filePath w)
  end.
  rewrite (splitFile_run_err env _ _ _ _ 3136 disk out e planned_segment_time Htool).
  unfold split_call_world, record; simpl. by rewrite <- !app_assoc.
Qed.

Lemma checkAndSendFile_split_ok (filePath : string) (chatID : Z) (w : World)
    (sz : Z) (disk : gmap string Z) (out : string) :
  files w !! filePath = Some sz →
  sz > maxFileSize →
  run_tool env (ffmpeg_call_world filePath w) "ffmpeg" (ffmpeg_args filePath 3136)
    = (disk, out, None) →
  ∃ (n k : nat) (err : option string),
    first_missing disk filePath n ∧
    checkAndSendFile env filePath chatID w =
      (Returns err,
       after_delivery chatID (take k (part_names filePath n))
         (mkWorld disk
            (trace w ++ [EvStat filePath; exceeds_log; splitting_log 3136;
                         EvExec "ffmpeg" (ffmpeg_args filePath 3136)]
                     ++ map (probe_event filePath) (seq 0 (S n))
                     ++ [split_done_log n]))) ∧
    (k ≤ n)%nat ∧ (err = None → k = n).
Proof.
  intros Hsz Hgt Htool.
  destruct (first_missing_exists disk filePath) as (n & _ & Hn).
  unfold checkAndSendFile. io_simpl. rewrite Hsz.
  rewrite decide_True by lia.
  match goal with
  | |- context [splitFile env _ _ _ ?w1] =>
      change w1 with (split_call_world filePath w)
  end.
  rewrite (splitFile_run_ok env _ _ _ _ 3136 disk out n planned_segment_time Htool Hn).
  match goal with
  | |- context [sendParts env ?ps chatID ?w1] =>
      destruct (sendParts_prefix env ps chatID w1) as (k & err & Hrun & Hk & Hall)
  end.
  exists n, k, err. split; [done|].
  unfold part_names in Hk, Hall. rewrite length_map, length_seq in Hk, Hall.
  split; [|done].
  rewrite Hrun. do 2 f_equal.
  unfold split_call_world, record; simpl. by rewrite <- !app_assoc.
Qed.

End SizeGate.

Section Routing.

Context (env : Env).

Lemma elem_of_delivery_events (chatID : Z) (parts : list string) (e : Event) :
  e ∈ delivery_events chatID parts ↔
  ∃ part, part ∈ parts ∧ (e = EvSend (NewAudio chatID part) ∨ e = EvRemove part).
Proof.
  unfold delivery_events. rewrite list_elem_of_bind.
  split.
  - intros (part & He & Hp). exists part. split; [done|].
    apply elem_of_cons in He as [->|He]; [by left|].
    apply list_elem_of_singleton in He as ->. by right.
  - intros (part & Hp & He). exists part. split; [|done].
    destruct He as [->| ->]; apply elem_of_cons; [by left|right].
    by apply list_elem_of_singleton.
Qed.

Lemma elem_of_taken_parts (filePath part : string) (n k : nat) :
  part ∈ take k (part_names filePath n) → ∃ i, part = partFilename filePath i.
Proof.
  intros Hin%(subseteq_take k). unfold part_names in Hin.
  apply list_elem_of_fmap in Hin as (i & -> & _). by exists i.
Qed.

Lemma probe_events_only_exec (filePath : string) (l : list nat) (e : Event) :
  e ∈ map (probe_event filePath) l → ∃ args, e = EvExec "test" args.
Proof. intros (i & -> & _)%list_elem_of_fmap. by eexists. Qed.

(** C6: the gate compares with a strict [>].  A file of at most
    [maxFileSize] bytes, so one of exactly that size, is sent as it is (one
    send of the file itself, no segmentation call); a larger file, so one
    of [maxFileSize + 1] bytes, is handed to [ffmpeg] and never sent
    itself. *)
Theorem checkAndSendFile_strict_gate (filePath : string) (chatID : Z)
    (w : World) (sz : Z) :
  files w !! filePath = Some sz →
  (sz ≤ maxFileSize →
     ∃ err w',
       checkAndSendFile env filePath chatID w = (Returns err, w') ∧
       new_events w w' =
         [EvStat filePath; EvSend (NewAudio chatID filePath); EvRemove filePath]) ∧
  (sz > maxFileSize →
     ∃ err w' rest,
       checkAndSendFile env filePath chatID w = (Returns err, w') ∧
       new_events w w' =
         [EvStat filePath; exceeds_log; splitting_log 3136;
          EvExec "ffmpeg" (ffmpeg_args filePath 3136)] ++ rest ∧
       EvSend (NewAudio chatID filePath) ∉ rest).
Proof.
  intros Hsz. split.
  - intros Hle. eexists _, _. split; [by eapply checkAndSendFile_direct|].
    unfold after_delivery, record, new_events; simpl.
    by rewrite <- app_assoc, drop_app_length.
  - intros Hgt.
    destruct (run_tool env (ffmpeg_call_world filePath w) "ffmpeg"
                (ffmpeg_args filePath 3136)) as [[disk out] [e|]] eqn:Htool.
    + eexists _, _, _. split; [by eapply checkAndSendFile_split_err|].
      split; [apply new_events_app|].
      apply not_elem_of_cons. split; [done|]. apply not_elem_of_nil.
    + destruct (checkAndSendFile_split_ok env filePath chatID w sz disk out
                  Hsz Hgt Htool) as (n & k & err & _ & Hrun & _).
      eexists err, _,
        (map (probe_event filePath) (seq 0 (S n)) ++ [split_done_log n]
         ++ delivery_events chatID (take k (part_names filePath n))).
      split; [exact Hrun|]. split.
      * unfold after_delivery, new_events; cbn [files trace].
        by rewrite <- !app_assoc, drop_app_length.
      * rewrite !elem_of_app. intros [Hin|[Hin|Hin]].
        -- apply probe_events_only_exec in Hin as [args [=]].
        -- apply list_elem_of_singleton in Hin. by unfold split_done_log in Hin.
        -- apply elem_of_delivery_events in Hin as (part & Hpart & [Heq|Heq]);
             [|done].
           injection Heq as <-.
           apply elem_of_taken_parts in Hpart as [i Hi].
           by apply (partFilename_ne_source filePath i).
Qed.

End Routing.

Lemma checkAndSendFile_strict_gate_witness :
  (∃ err w',
     checkAndSendFile (Scenario.env 3 None) "song.mp3" 7 Scenario.full_song
       = (Returns err, w') ∧
     new_events Scenario.full_song w' =
       [EvStat "song.mp3"; EvSend (NewAudio 7 "song.mp3"); EvRemove "song.mp3"]) ∧
  (∃ err w' rest,
     checkAndSendFile (Scenario.env 3 None) "song.mp3" 7 Scenario.big_song
       = (Returns err, w') ∧
     new_events Scenario.big_song w' =
       [EvStat "song.mp3"; exceeds_log; splitting_log 3136;
        EvExec "ffmpeg" (ffmpeg_args "song.mp3" 3136)] ++ rest ∧
     EvSend (NewAudio 7 "song.mp3") ∉ rest).
Proof.
  split.
  - apply (checkAndSendFile_strict_gate (Scenario.env 3 None) "song.mp3" 7
             Scenario.full_song maxFileSize); [reflexivity | lia].
  - apply (checkAndSendFile_strict_gate (Scenario.env 3 None) "song.mp3" 7
             Scenario.big_song (maxFileSize + 1)); [reflexivity | lia].
Defined.

Section Ordering.

Context (env : Env).


End Ordering.


(** A run with three parts, computed: they are probed up to index 3 and
    sent in the order 0, 1, 2. *)
Example three_parts_in_order :
  let w := Scenario.big_song in
  let r := checkAndSendFile (Scenario.env 3 None) "song.mp3" 7 w in
  returned r = Some None ∧
  new_events w r.2 =
    [EvStat "song.mp3";
     EvLog "File exceeds 50 MB, splitting into parts";
     EvLog "Splitting file with segment time of 3136 seconds";
     EvExec "ffmpeg" ["-i"; "song.mp3"; "-f"; "segment"; "-segment_time"; "3136";
                      "-c"; "copy"; "song.mp3.part%03d.mp3"];
     EvExec "test" ["-f"; "song.mp3.part000.mp3"];
     EvExec "test" ["-f"; "song.mp3.part001.mp3"];
     EvExec "test" ["-f"; "song.mp3.part002.mp3"];
     EvExec "test" ["-f"; "song.mp3.part003.mp3"];
     EvLog "File split successfully into 3 parts";
     EvSend (NewAudio 7 "song.mp3.part000.mp3"); EvRemove "song.mp3.part000.mp3";
     EvSend (NewAudio 7 "song.mp3.part001.mp3"); EvRemove "song.mp3.part001.mp3";
     EvSend (NewAudio 7 "song.mp3.part002.mp3"); EvRemove "song.mp3.part002.mp3"].
Proof. split; vm_compute; reflexivity. Qed.

(** ** The request handler *)

Section Handler.

Context (env : Env).

(** C8: when the trimmed text is not accepted by the validation, the
    handler sends the validation message, logs the failure of that send if
    it fails, and returns: the disk is untouched and no external command,
    so no acquisition, is run. *)
Theorem handleMessage_rejects_invalid (message : Message) (w : World) :
  isValidYouTubeURL (TrimSpace (Text message)) = false →
  let reply := NewMessage (Chat_ID message) "Please send a valid YouTube video URL." in
  ∃ w',
    handleMessage env message w = (Returns (), w') ∧
    files w' = files w ∧
    new_events w w' =
      EvSend reply ::
      match tg_send env w reply with
      | Some e => [EvLog ("Error sending message: " +:+ e)]
      | None => []
      end ∧
    ∀ name args, EvExec name args ∉ new_events w w'.
Proof.
  intros Hinvalid reply. unfold handleMessage. rewrite Hinvalid.
  cbn [negb]. io_simpl. fold reply.
  destruct (tg_send env w reply) as [e|].
  - eexists. split; [done|]. split; [done|].
    unfold new_events; cbn [files trace].
    rewrite <- app_assoc, drop_app_length.
    split; [done|]. intros name args Hin.
    apply elem_of_cons in Hin as [?|Hin]; [done|].
    by apply list_elem_of_singleton in Hin.
  - eexists. split; [done|]. split; [done|].
    unfold new_events; cbn [files trace].
    rewrite drop_app_length.
    split; [done|]. intros name args Hin.
    by apply list_elem_of_singleton in Hin.
Qed.

End Handler.

Lemma handleMessage_rejects_invalid_witness :
  let message := mkMessage 7 "  not a url  " in
  let reply := NewMessage 7 "Please send a valid YouTube video URL." in
  let env := Scenario.env 3 None in
  let w := Scenario.empty_world in
  ∃ w',
    handleMessage env message w = (Returns (), w') ∧
    files w' = files w ∧
    new_events w w' =
      EvSend reply ::
      match tg_send env w reply with
      | Some e => [EvLog ("Error sending message: " +:+ e)]
      | None => []
      end ∧
    ∀ name args, EvExec name args ∉ new_events w w'.
Proof.
  intros message reply env w.
  apply (handleMessage_rejects_invalid env message w).
  vm_compute. reflexivity.
Defined.

(** ** What the pipeline removes *)

Ltac elem_cases H :=
  repeat match type of H with
         | _ ∈ _ :: _ => apply elem_of_cons in H as [H|H]
         | _ ∈ [] => by apply elem_of_nil in H
         end.

Section Removal.

Context (env : Env).

Lemma lookup_after_deletes (disk : gmap string Z) (parts : list string)
    (path : string) :
  path ∉ parts →
  foldl (λ d part, delete part d) disk parts !! path = disk !! path.
Proof.
  revert disk. induction parts as [|part rest IH]; intros disk Hnotin; simpl.
  - done.
  - apply not_elem_of_cons in Hnotin as [Hne Hrest].
    rewrite IH by done. by apply lookup_delete_ne.
Qed.

Lemma checkAndSendFile_stat_err (filePath : string) (chatID : Z) (w : World) :
  files w !! filePath = None →
  checkAndSendFile env filePath chatID w =
    (Returns (Some ("could not check file size: stat " +:+ filePath
                    +:+ ": no such file or directory")),
     record (EvStat filePath) w).
Proof. intros Hnone. unfold checkAndSendFile. io_simpl. by rewrite Hnone. Qed.

(** Every run of [checkAndSendFile] returns.  It stats no other file than
    its argument, and either it does not call [ffmpeg], or it removes
    nothing but parts of its argument and leaves the argument on the disk
    if the external tools do. *)
Lemma checkAndSendFile_footprint (filePath : string) (chatID : Z) (w : World) :
  ∃ (err : option string) (w' : World) (evs : list Event),
    checkAndSendFile env filePath chatID w = (Returns err, w') ∧
    trace w' = trace w ++ evs ∧
    (∀ src, EvStat src ∈ evs → src = filePath) ∧
    ((∀ args, EvExec "ffmpeg" args ∉ evs) ∨
     ((∀ path, EvRemove path ∈ evs → ∃ i, path = partFilename filePath i) ∧
      (tools_keep env filePath → is_Some (files w' !! filePath)))).
Proof.
  destruct (files w !! filePath) as [sz|] eqn:Hsz.
  2:{ eexists _, _, [EvStat filePath].
      split; [by apply checkAndSendFile_stat_err|]. split; [done|].
      split; [|left]; intros x Hin; apply list_elem_of_singleton in Hin; congruence. }
  destruct (decide (sz ≤ maxFileSize)) as [Hle|Hgt].
  { eexists _, _, [EvStat filePath; EvSend (NewAudio chatID filePath);
                   EvRemove filePath].
    split; [by eapply checkAndSendFile_direct|].
    split; [unfold after_delivery, record; simpl; by rewrite <- app_assoc|].
    split; [|left]; intros x Hin; elem_cases Hin; congruence. }
  assert (is_Some (files (ffmpeg_call_world filePath w) !! filePath)) as Hthere.
  { simpl. by eexists. }
  destruct (run_tool env (ffmpeg_call_world filePath w) "ffmpeg"
              (ffmpeg_args filePath 3136)) as [[disk out] [e|]] eqn:Htool.
  - eexists _, _, _.
    split; [exact (checkAndSendFile_split_err env filePath chatID w sz disk
                     out e Hsz ltac:(lia) Htool)|].
    split; [done|].
    split; [|right; split].
    + intros x Hin. unfold exceeds_log, splitting_log in Hin.
      elem_cases Hin; congruence.
    + intros x Hin. unfold exceeds_log, splitting_log in Hin.
      elem_cases Hin; discriminate.
    + intros Hkeep.
      pose proof (Hkeep _ "ffmpeg" (ffmpeg_args filePath 3136) Hthere) as Hkept.
      by rewrite Htool in Hkept.
  - destruct (checkAndSendFile_split_ok env filePath chatID w sz disk out
                Hsz ltac:(lia) Htool) as (n & k & err & _ & Hrun & _).
    eexists err, _,
      ([EvStat filePath; exceeds_log; splitting_log 3136;
        EvExec "ffmpeg" (ffmpeg_args filePath 3136)]
       ++ map (probe_event filePath) (seq 0 (S n)) ++ [split_done_log n]
       ++ delivery_events chatID (take k (part_names filePath n))).
    split; [exact Hrun|].
    split; [unfold after_delivery; cbn [files trace]; by rewrite <- !app_assoc|].
    assert (∀ e, e ∈ map (probe_event filePath) (seq 0 (S n)) ++ [split_done_log n]
                     ++ delivery_events chatID (take k (part_names filePath n)) →
                 (∃ a, e = EvExec "test" a) ∨ e = split_done_log n ∨
                 ∃ i, e = EvSend (NewAudio chatID (partFilename filePath i)) ∨
                      e = EvRemove (partFilename filePath i)) as Hshape.
    { intros e. rewrite !elem_of_app. intros [Hin|[Hin|Hin]].
      - left. by eapply probe_events_only_exec.
      - right; left. by apply list_elem_of_singleton in Hin.
      - right; right.
        apply elem_of_delivery_events in Hin as (part & Hpart & He).
        apply elem_of_taken_parts in Hpart as [i ->]. by exists i. }
    split; [|right; split].
    + intros x Hin. unfold exceeds_log, splitting_log in Hin.
      apply elem_of_app in Hin as [Hin|Hin].
      * elem_cases Hin; congruence.
      * apply Hshape in Hin as [[a Ha]|[Ha|[i [Ha|Ha]]]]; discriminate.
    + intros x Hin. unfold exceeds_log, splitting_log in Hin.
      apply elem_of_app in Hin as [Hin|Hin].
      * elem_cases Hin; discriminate.
      * apply Hshape in Hin as [[a Ha]|[Ha|[i [Ha|Ha]]]]; try discriminate.
        injection Ha as ->. by exists i.
    + intros Hkeep.
      pose proof (Hkeep _ "ffmpeg" (ffmpeg_args filePath 3136) Hthere) as Hkept.
      rewrite Htool in Hkept.
      unfold after_delivery; cbn [files trace].
      rewrite lookup_after_deletes; [done|].
      intros [i Hi]%elem_of_taken_parts.
      by apply (partFilename_ne_source filePath i).
Qed.

End Removal.

(** ** The whole pipeline *)

Section Pipeline.

Context (env : Env).

Lemma bind_run {A B : Type} (m : IO A) (f : A → IO B) (w w1 : World) (a : A) :
  m w = (Returns a, w1) → (m ≫= f) w = f a w1.
Proof. intros Hm. unfold mbind, IO_bind. by rewrite Hm. Qed.

Lemma bot_Send_step {B : Type} (c : Chattable) (f : option string → IO B) (w : World) :
  (bot_Send env c ≫= f) w = f (tg_send env w c) (record (EvSend c) w).
Proof. reflexivity. Qed.

Lemma log_Println_step {B : Type} (line : string) (f : () → IO B) (w : World) :
  (log_Println line ≫= f) w = f () (record (EvLog line) w).
Proof. reflexivity. Qed.

Lemma time_Now_step {B : Type} (f : Z → IO B) (w : World) :
  (time_Now_UnixNano env ≫= f) w = f (clock env w) (record EvNow w).
Proof. reflexivity. Qed.

Lemma exec_step {B : Type} (name : string) (args : list string)
    (f : string * option string → IO B) (w : World) :
  (exec_CombinedOutput env name args ≫= f) w =
    f ((run_tool env w name args).1.2, (run_tool env w name args).2)
      (mkWorld (run_tool env w name args).1.1 (trace w ++ [EvExec name args])).
Proof.
  unfold mbind, IO_bind, exec_CombinedOutput.
  by destruct (run_tool env w name args) as [[disk out] err].
Qed.

Lemma log_if_failed_run (err : option string) (w : World) :
  ∃ chatter,
    log_if_failed err w = (Returns (), mkWorld (files w) (trace w ++ chatter)) ∧
    Forall quiet chatter.
Proof.
  destruct err as [e|].
  - eexists [_]. split; [reflexivity|]. by repeat constructor.
  - exists []. split; [|done]. rewrite app_nil_r. by destruct w.
Qed.

Lemma downloadMp3_run (url : string) (chatID : Z) (w : World) :
  ∃ (stem : string) (evs : list Event) (disk : gmap string Z),
    Forall quiet evs ∧
    (downloadMp3 env url chatID w =
       (Returns (stem +:+ ".mp3", stem +:+ ".m4a", None),
        mkWorld disk (trace w ++ evs)) ∨
     ∃ e, downloadMp3 env url chatID w =
            (Returns ("", "", Some e), mkWorld disk (trace w ++ evs))).
Proof.
  unfold downloadMp3. rewrite time_Now_step, exec_step.
  set (stem := "download_" +:+ fmt_d chatID +:+ "_" +:+ fmt_d (clock env w)).
  match goal with
  | |- context [run_tool env ?w1 ?name ?args] =>
      destruct (run_tool env w1 name args) as [[disk out] [e|]]
  end; cbn [fst snd]; rewrite log_Println_step.
  - eexists stem, [EvNow; EvExec "yt-dlp" _; EvLog _; EvLog _], disk. split.
    + by repeat constructor.
    + right. exists e. rewrite log_Println_step.
      unfold mret, IO_ret, record; cbn [files trace]. by rewrite <- !app_assoc.
  - eexists stem, [EvNow; EvExec "yt-dlp" _; EvLog _], disk. split.
    + by repeat constructor.
    + left. unfold mret, IO_ret, record; cbn [files trace]. by rewrite <- !app_assoc.
Qed.

Lemma report_run (chatID : Z) (what : string) (err : option string) (w : World) :
  ∃ post,
    match err with
    | Some e =>
        err' ← bot_Send env (NewMessage chatID (what +:+ e));
        _ ← log_if_failed err';
        log_Println (what +:+ fmt_err err')
    | None => mret ()
    end w = (Returns (), mkWorld (files w) (trace w ++ post)) ∧
    Forall quiet post.
Proof.
  destruct err as [e|].
  - rewrite bot_Send_step.
    match goal with
    | |- context [(log_if_failed ?e1 ≫= _) ?w1] =>
        destruct (log_if_failed_run e1 w1) as (l & Hl & Hq)
    end.
    rewrite (bind_run _ _ _ _ _ Hl).
    eexists (EvSend (NewMessage chatID (what +:+ e)) :: l ++ [EvLog _]).
    split.
    + unfold log_Println, record; cbn [files trace]. by rewrite <- !app_assoc.
    + constructor; [done|]. apply Forall_app. split; [done|]. by repeat constructor.
  - exists []. split; [|done]. unfold mret, IO_ret. rewrite app_nil_r. by destruct w.
Qed.

Lemma handleMessage_shape (message : Message) (w w' : World) (o : Outcome ()) :
  handleMessage env message w = (o, w') →
  Forall quiet (new_events w w') ∨
  ∃ (stem : string) (pre evs post : list Event) (w3 w4 : World)
    (err : option string),
    Forall quiet pre ∧ Forall quiet post ∧
    new_events w w' = pre ++ evs ++ post ++ [EvRemove (stem +:+ ".m4a")] ∧
    checkAndSendFile env (stem +:+ ".mp3") (Chat_ID message) w3 = (Returns err, w4) ∧
    trace w4 = trace w3 ++ evs ∧
    files w' = delete (stem +:+ ".m4a") (files w4) ∧
    (∀ src, EvStat src ∈ evs → src = stem +:+ ".mp3") ∧
    ((∀ args, EvExec "ffmpeg" args ∉ evs) ∨
     ((∀ path, EvRemove path ∈ evs → ∃ i, path = partFilename (stem +:+ ".mp3") i) ∧
      (tools_keep env (stem +:+ ".mp3") → is_Some (files w4 !! (stem +:+ ".mp3"))))).
Proof.
  intros Hrun. unfold handleMessage in Hrun.
  destruct (isValidYouTubeURL (TrimSpace (Text message))); cbn [negb] in Hrun.
  2:{ left. rewrite bot_Send_step in Hrun.
      match type of Hrun with
      | log_if_failed ?e ?w1 = _ =>
          destruct (log_if_failed_run e w1) as (l & Hl & Hq)
      end.
      rewrite Hl in Hrun. injection Hrun as <- <-.
      unfold new_events; cbn [trace files record]. rewrite <- app_assoc, drop_app_length.
      by constructor. }
  rewrite bot_Send_step in Hrun.
  match type of Hrun with
  | (log_if_failed ?e ≫= _) ?w1 = _ =>
      destruct (log_if_failed_run e w1) as (ack & Hack & Hqack)
  end.
  rewrite (bind_run _ _ _ _ _ Hack) in Hrun. clear Hack.
  destruct (downloadMp3_run (TrimSpace (Text message)) (Chat_ID message)
              {| files := files (record (EvSend (NewMessage (Chat_ID message) "Starting to process your request...")) w);
                 trace := trace (record (EvSend (NewMessage (Chat_ID message) "Starting to process your request...")) w) ++ ack |})
    as (stem & dl & disk & Hqdl & [Hdl|[e Hdl]]);
    rewrite (bind_run _ _ _ _ _ Hdl) in Hrun; clear Hdl; cbn [record files trace] in Hrun.
  2:{ left.
      destruct (report_run (Chat_ID message) "Error downloading mp3: " (Some e)
                  {| files := disk; trace := ((trace w ++ [EvSend (NewMessage (Chat_ID message) "Starting to process your request...")]) ++ ack) ++ dl |})
        as (post & Hpost & Hqpost).
      rewrite Hpost in Hrun. injection Hrun as <- <-.
      unfold new_events; cbn [files trace]. rewrite <- !app_assoc, drop_app_length.
      constructor; [done|]. by rewrite !Forall_app. }
  right.
  match type of Hrun with
  | (checkAndSendFile env ?p ?c ≫= _) ?w3 = _ =>
      destruct (checkAndSendFile_footprint env p c w3)
        as (err & w4 & evs & Hcheck & Htr & Hstat & Hfoot);
      exists stem, (EvSend (NewMessage (Chat_ID message)
                      "Starting to process your request...") :: ack ++ dl),
        evs;
      destruct (report_run (Chat_ID message) "Error sending mp3: " err w4)
        as (post & Hpost & Hqpost);
      exists post, w3, w4, err
  end.
  rewrite (bind_run _ _ _ _ _ Hcheck), (bind_run _ _ _ _ _ Hpost) in Hrun.
  injection Hrun as <- <-.
  split; [constructor; [done|by apply Forall_app]|].
  split; [done|]. split; [|done].
  unfold new_events; cbn [files trace]. rewrite Htr; cbn [trace].
  rewrite <- !app_assoc, drop_app_length. simpl. by rewrite <- !app_assoc.
Qed.

(** C9: in every run of the handler in which the size gate has measured the
    file [src] and [ffmpeg] has been called on it, [src] itself is never
    removed: the only files removed are parts of [src] and the [.m4a] path
    next to it.  So [src] is still on the disk when the handler returns,
    provided the external tools did not take it away. *)
Theorem source_survives_split (message : Message) (w w' : World)
    (o : Outcome ()) (src : string) (args : list string) :
  handleMessage env message w = (o, w') →
  EvStat src ∈ new_events w w' →
  EvExec "ffmpeg" args ∈ new_events w w' →
  (EvRemove src ∉ new_events w w') ∧
  (∃ stem, src = stem +:+ ".mp3" ∧
     ∀ path, EvRemove path ∈ new_events w w' →
       path = stem +:+ ".m4a" ∨ ∃ i, path = partFilename src i) ∧
  (tools_keep env src → is_Some (files w' !! src)).
Proof.
  intros Hrun Hstat Hff.
  destruct (handleMessage_shape message w w' o Hrun)
    as [Hq | (stem & pre & evs & post & w3 & w4 & err & Hqpre & Hqpost & Hev
              & _ & _ & Hfiles & Hsrc & Hfoot)].
  { rewrite Forall_forall in Hq. by apply Hq in Hstat. }
  rewrite Forall_forall in Hqpre, Hqpost.
  assert (stem +:+ ".mp3" ≠ stem +:+ ".m4a") as Hext.
  { intros Heq. by apply (inj (String.app stem)) in Heq. }
  rewrite Hev in Hstat, Hff |- *. clear Hev.
  rewrite !elem_of_app, list_elem_of_singleton in Hstat, Hff.
  assert (src = stem +:+ ".mp3") as ->.
  { destruct Hstat as [Hin|[Hin|[Hin|Hin]]];
      [by apply Hqpre in Hin | by apply Hsrc | by apply Hqpost in Hin | done]. }
  assert (EvExec "ffmpeg" args ∈ evs) as Hsplit.
  { destruct Hff as [Hin|[Hin|[Hin|Hin]]];
      [by apply Hqpre in Hin | done | by apply Hqpost in Hin | done]. }
  destruct Hfoot as [Hnone | [Hparts Hkeep]]; [by apply Hnone in Hsplit|].
  assert (∀ path, EvRemove path ∈ pre ++ evs ++ post ++ [EvRemove (stem +:+ ".m4a")] →
            path = stem +:+ ".m4a" ∨ ∃ i, path = partFilename (stem +:+ ".mp3") i)
    as Hremoved.
  { intros path. rewrite !elem_of_app, list_elem_of_singleton.
    intros [Hin|[Hin|[Hin|Hin]]].
    - by apply Hqpre in Hin.
    - right. by apply Hparts.
    - by apply Hqpost in Hin.
    - left. by injection Hin. }
  split; [|split].
  - intros [Heq | [i Heq]]%Hremoved; [done|].
    symmetry in Heq. by apply partFilename_ne_source in Heq.
  - by exists stem.
  - intros Hkept. rewrite Hfiles, lookup_delete_ne by done. by apply Hkeep.
Qed.

End Pipeline.

Lemma scenario_tools_keep (parts : nat) (refused : option string) (path : string) :
  tools_keep (Scenario.env parts refused) path.
Proof.
  intros w name args Hthere. simpl. unfold Scenario.tool.
  case_decide; simpl.
  - apply lookup_insert_is_Some'. by right.
  - induction (seq 0 parts) as [|i l IH]; simpl; [done|].
    apply lookup_insert_is_Some'. by right.
Qed.

Lemma source_survives_split_witness :
  let env := Scenario.env 3 None in
  let w := Scenario.empty_world in
  let w' := (handleMessage env (mkMessage 7 " https://youtu.be/abc ") w).2 in
  let src := "download_7_42.mp3" in
  (EvRemove src ∉ new_events w w') ∧
  (∃ stem, src = stem +:+ ".mp3" ∧
     ∀ path, EvRemove path ∈ new_events w w' →
       path = stem +:+ ".m4a" ∨ ∃ i, path = partFilename src i) ∧
  is_Some (files w' !! src).
Proof.
  intros env w w' src.
  destruct (source_survives_split env (mkMessage 7 " https://youtu.be/abc ") w w'
              (handleMessage env (mkMessage 7 " https://youtu.be/abc ") w).1
              src (ffmpeg_args src 3136)) as (Hkept & Hremoved & Hdisk).
  - apply surjective_pairing.
  - apply (bool_decide_unpack _). vm_compute. exact I.
  - apply (bool_decide_unpack _). vm_compute. exact I.
  - split; [exact Hkept|]. split; [exact Hremoved|].
    apply Hdisk, scenario_tools_keep.
Defined.

(** A request that is split in three parts, computed: the parts and the
    [.m4a] path are removed, the downloaded file is still on the disk at the
    end. *)
Example split_request_leaves_source :
  let w := Scenario.empty_world in
  let r := handleMessage (Scenario.env 3 None) (mkMessage 7 " https://youtu.be/abc ") w in
  returned r = Some () ∧
  removed (new_events w r.2) =
    ["download_7_42.mp3.part000.mp3"; "download_7_42.mp3.part001.mp3";
     "download_7_42.mp3.part002.mp3"; "download_7_42.m4a"] ∧
  files r.2 !! "download_7_42.mp3" = Some (maxFileSize + 1).
Proof. repeat split; vm_compute; reflexivity. Qed.

(** * Further properties of the handler and its parts *)

(** ** Running a request step by step *)

Section Requests.

Context (env : Env).

Lemma reply_step {B : Type} (c : Chattable) (k : option string → IO B) (w : World) :
  (bot_Send env c ≫= λ err, log_if_failed err ≫= λ _, k err) w =
    k (tg_send env w c) (after_reply env c w).
Proof.
  rewrite bot_Send_step. unfold after_reply, reply_events.
  destruct (tg_send env w c) as [e|]; unfold log_if_failed.
  - rewrite log_Println_step. unfold record; cbn [files trace].
    by rewrite <- app_assoc.
  - reflexivity.
Qed.

Lemma reply_run (c : Chattable) (w : World) :
  (bot_Send env c ≫= log_if_failed) w = (Returns (), after_reply env c w).
Proof.
  rewrite bot_Send_step. unfold after_reply, reply_events.
  destruct (tg_send env w c) as [e|]; unfold log_if_failed.
  - unfold log_Println, record; cbn [files trace]. by rewrite <- app_assoc.
  - reflexivity.
Qed.

Lemma report_step (chatID : Z) (what e : string) (w : World) :
  (bot_Send env (NewMessage chatID (what +:+ e)) ≫= λ err,
     log_if_failed err ≫= λ _, log_Println (what +:+ fmt_err err)) w =
    (Returns (), mkWorld (files w) (trace w ++ report_events env chatID what e w)).
Proof.
  rewrite reply_step. unfold log_Println, record, after_reply, report_events.
  cbn [files trace]. by rewrite <- app_assoc.
Qed.

Lemma downloadMp3_exact (url : string) (chatID : Z) (w : World) :
  let ts := clock env w in
  let '(disk, out, err) :=
    run_tool env (record EvNow w) "yt-dlp" (ytdlp_args chatID ts url) in
  downloadMp3 env url chatID w =
    (Returns (match err with
              | Some e => ("", "", Some e)
              | None => (download_stem chatID ts +:+ ".mp3",
                         download_stem chatID ts +:+ ".m4a", None)
              end),
     mkWorld disk (trace w ++ download_events chatID ts url out err)).
Proof.
  intros ts. unfold downloadMp3. rewrite time_Now_step, exec_step.
  fold ts. fold (download_stem chatID ts). fold (ytdlp_args chatID ts url).
  destruct (run_tool env (record EvNow w) "yt-dlp" (ytdlp_args chatID ts url))
    as [[disk out] [e|]]; cbn [fst snd]; rewrite log_Println_step.
  - rewrite log_Println_step. unfold mret, IO_ret, record, download_events.
    cbn [files trace]. by rewrite <- !app_assoc.
  - unfold mret, IO_ret, record, download_events.
    cbn [files trace]. by rewrite <- !app_assoc.
Qed.

Lemma handleMessage_valid_run (message : Message) (w : World) :
  isValidYouTubeURL (TrimSpace (Text message)) = true →
  let chat := Chat_ID message in
  let stem := request_stem env message w in
  let w3 := download_done_world env message w in
  handleMessage env message w =
    match (download_result env message w).2 with
    | Some e =>
        (Returns (),
         mkWorld (files w3)
           (trace w3 ++ report_events env chat "Error downloading mp3: " e w3))
    | None =>
        match checkAndSendFile env (stem +:+ ".mp3") chat w3 with
        | (Returns err, w4) => (Returns (), request_end_world env chat stem err w4)
        | (Panics msg, w4) => (Panics msg, w4)
        | (OutOfFuel, w4) => (OutOfFuel, w4)
        end
    end.
Proof.
  intros Hvalid chat stem w3. subst chat stem w3.
  unfold handleMessage. rewrite Hvalid. cbn [negb].
  rewrite (reply_step _ (λ _, _)).
  pose proof (downloadMp3_exact (TrimSpace (Text message)) (Chat_ID message)
                (after_reply env (ack_message message) w)) as Hdl.
  cbv zeta in Hdl.
  unfold download_done_world, request_stem, request_time.
  unfold download_result, download_call_world, clock_world in *.
  unfold ack_message in *.
  destruct (run_tool env _ "yt-dlp" _) as [[disk out] [e|]]; cbn [fst snd files trace];
    rewrite (bind_run _ _ _ _ _ Hdl); cbv beta iota.
  - apply report_step.
  - destruct (checkAndSendFile env _ (Chat_ID message) _) as [[err| |] w4] eqn:Hcheck.
    + rewrite (bind_run _ _ _ _ _ Hcheck).
      unfold request_end_world, after_report.
      destruct err as [e|].
      * rewrite (bind_run _ _ _ _ _
                   (report_step (Chat_ID message) "Error sending mp3: " e w4)).
        reflexivity.
      * reflexivity.
    + unfold mbind, IO_bind at 1. by rewrite Hcheck.
    + unfold mbind, IO_bind at 1. by rewrite Hcheck.
Qed.
End Requests.

(** ** The planner as arithmetic *)

Section PlannerArithmetic.

Import GoInt.

(** X1: on 64-bit inputs the planner never wraps around.  It panics exactly
    when the bitrate lies strictly between -8 and 8, and otherwise returns
    the exact truncated quotient of the budget in kilobytes by the rate in
    kilobytes per second, whose magnitude is at most that of the budget in
    kilobytes. *)
Theorem calculateSegmentTime_exact (chunkSize bitrateKbps : Z) :
  in_int64 chunkSize → in_int64 bitrateKbps →
  (calculateSegmentTime chunkSize bitrateKbps = None ↔ -8 < bitrateKbps < 8) ∧
  (∀ v, calculateSegmentTime chunkSize bitrateKbps = Some v →
        v = (chunkSize ÷ 1024) ÷ (bitrateKbps ÷ 8) ∧
        Z.abs v ≤ Z.abs (chunkSize ÷ 1024) ∧ in_int64 v).
Proof.
  intros Hc Hb. rewrite calculateSegmentTime_eq by done.
  assert (bitrateKbps ÷ 8 = 0 ↔ -8 < bitrateKbps < 8) as Hzero.
  { rewrite Z.quot_small_iff by lia. change (Z.abs 8) with 8.
    split; intros ?; lia. }
  case_decide as Hr; split.
  - by rewrite <- Hzero.
  - intros v [=].
  - rewrite <- Hzero. by split.
  - intros v [= <-]. split; [done|].
    pose proof (quot_abs_le (chunkSize ÷ 1024) (bitrateKbps ÷ 8) Hr) as Hv.
    split; [done|]. unfold in_int64, min_int64, max_int64 in *.
    assert (Z.abs (chunkSize ÷ 1024) ≤ 2 ^ 53); [|lia].
    rewrite <- (Z.quot_abs chunkSize 1024) by lia.
    rewrite Z.quot_div_nonneg by lia.
    apply Z.div_le_upper_bound; lia.
Qed.

Lemma calculateSegmentTime_exact_witness :
  (calculateSegmentTime maxFileSize bitrateKBps = None ↔ -8 < bitrateKBps < 8) ∧
  (∀ v, calculateSegmentTime maxFileSize bitrateKBps = Some v →
        v = (maxFileSize ÷ 1024) ÷ (bitrateKBps ÷ 8) ∧
        Z.abs v ≤ Z.abs (maxFileSize ÷ 1024) ∧ in_int64 v).
Proof.
  apply (calculateSegmentTime_exact maxFileSize bitrateKBps);
    unfold in_int64, min_int64, max_int64, maxFileSize, bitrateKBps; lia.
Defined.

(** X2: for bitrates of at least 8 the planned duration grows with the
    budget and shrinks with the bitrate: a smaller budget at a higher
    bitrate never gives a longer segment. *)
Theorem calculateSegmentTime_monotone (budget budget' bitrate bitrate' : Z) :
  0 ≤ budget ≤ budget' → budget' ≤ max_int64 →
  8 ≤ bitrate' ≤ bitrate → bitrate ≤ max_int64 →
  ∃ v v',
    calculateSegmentTime budget bitrate = Some v ∧
    calculateSegmentTime budget' bitrate' = Some v' ∧
    v ≤ v'.
Proof.
  intros Hc Hc' Hb Hb'. unfold max_int64 in *.
  assert (∀ x, 0 ≤ x ≤ 2 ^ 63 - 1 → in_int64 x) as Hin.
  { unfold in_int64, min_int64, max_int64. lia. }
  assert (1 ≤ bitrate' ÷ 8) as Hr'.
  { rewrite Z.quot_div_nonneg by lia. apply Z.div_le_lower_bound; lia. }
  assert (bitrate' ÷ 8 ≤ bitrate ÷ 8) as Hr.
  { rewrite !Z.quot_div_nonneg by lia. apply Z.div_le_mono; lia. }
  assert (0 ≤ budget ÷ 1024 ≤ budget' ÷ 1024) as Hk.
  { rewrite !Z.quot_div_nonneg by lia.
    split; [apply Z.div_pos; lia | apply Z.div_le_mono; lia]. }
  rewrite !calculateSegmentTime_eq by (apply Hin; lia).
  rewrite !decide_False by lia. eexists _, _. split; [done|]. split; [done|].
  set (k := budget ÷ 1024) in *. set (k' := budget' ÷ 1024) in *.
  set (r := bitrate ÷ 8) in *. set (r' := bitrate' ÷ 8) in *.
  rewrite !Z.quot_div_nonneg by lia.
  etrans; [apply Z.div_le_compat_l with (q := r'); lia|].
  apply Z.div_le_mono; lia.
Qed.

Lemma calculateSegmentTime_monotone_witness :
  ∃ v v',
    calculateSegmentTime 1000000 320 = Some v ∧
    calculateSegmentTime maxFileSize bitrateKBps = Some v' ∧
    v ≤ v'.
Proof.
  apply (calculateSegmentTime_monotone 1000000 maxFileSize 320 bitrateKBps);
    unfold max_int64, maxFileSize, bitrateKBps; lia.
Defined.

End PlannerArithmetic.

(** ** The disk after a delivery *)

Section DeliveryDisk.

Context (env : Env).

Lemma lookup_after_deletes_in (disk : gmap string Z) (parts : list string)
    (path : string) :
  path ∈ parts →
  foldl (λ d part, delete part d) disk parts !! path = None.
Proof.
  revert disk. induction parts as [|part rest IH]; intros disk Hin; simpl.
  - by apply elem_of_nil in Hin.
  - destruct (decide (path ∈ rest)) as [Hrest|Hrest]; [by apply IH|].
    apply elem_of_cons in Hin as [->|Hin]; [|done].
    rewrite lookup_after_deletes by done. apply lookup_delete_eq.
Qed.

(** X3: the names of the parts of a file differ from each other and from
    the name of the file, so writing or removing a part never touches
    another part or the source. *)
Theorem part_names_distinct (filePath : string) (n : nat) :
  NoDup (filePath :: part_names filePath n).
Proof.
  apply NoDup_cons. split.
  - intros (i & Hi & _)%list_elem_of_fmap.
    by apply (partFilename_ne_source filePath i).
  - apply NoDup_fmap_2; [|apply NoDup_seq].
    intros i j. apply partFilename_inj.
Qed.

(** X4: when the transport accepts every part, the loop returns no error,
    has sent and removed the parts in order, has taken all of them off the
    disk and has left every other file as it was. *)
Theorem sendParts_accepted_cleans_parts (parts : list string) (chatID : Z)
    (w : World) :
  (∀ i part, parts !! i = Some part →
     tg_send env (after_delivery chatID (take i parts) w) (NewAudio chatID part) = None) →
  ∃ w',
    sendParts env parts chatID w = (Returns None, w') ∧
    new_events w w' = delivery_events chatID parts ∧
    (∀ part, part ∈ parts → files w' !! part = None) ∧
    (∀ path, path ∉ parts → files w' !! path = files w !! path).
Proof.
  intros Hok. exists (after_delivery chatID parts w).
  split; [by apply sendParts_all_accepted|].
  split; [apply after_delivery_trace|]. split.
  - intros part Hin. by apply lookup_after_deletes_in.
  - intros path Hout. by apply lookup_after_deletes.
Qed.

(** X5: when the send at index [k] is the first refused one, the parts up
    to and including index [k] are off the disk, and the parts after it
    are neither sent nor removed: they stay on the disk as they were. *)
Theorem sendParts_failure_leaves_rest (parts : list string) (chatID : Z)
    (w : World) (k : nat) (cause : string) :
  NoDup parts →
  first_failure env chatID parts w k cause →
  ∃ w',
    sendParts env parts chatID w =
      (Returns (Some ("error sending file part: " +:+ cause)), w') ∧
    ∀ j part, parts !! j = Some part →
      ((j ≤ k)%nat → files w' !! part = None) ∧
      ((k < j)%nat →
         files w' !! part = files w !! part ∧
         part ∉ audio_sent (new_events w w')).
Proof.
  intros Hnodup Hfail. exists (after_delivery chatID (take (S k) parts) w).
  split; [by apply sendParts_first_failure|].
  intros j part Hj. split.
  - intros Hle. apply lookup_after_deletes_in.
    apply elem_of_take. exists j. split; [done|lia].
  - intros Hlt.
    assert (part ∉ take (S k) parts) as Hout.
    { intros (i & Hi & Hik)%elem_of_take.
      pose proof (NoDup_lookup _ _ _ _ Hnodup Hi Hj). lia. }
    split; [by apply lookup_after_deletes|].
    rewrite after_delivery_trace. unfold audio_sent.
    intros (e & He & Hpart)%list_elem_of_omap.
    apply elem_of_delivery_events in He as (q & Hq & [-> | ->]); [|done].
    by injection Hpart as ->.
Qed.

End DeliveryDisk.

Lemma sendParts_accepted_cleans_parts_witness :
  let parts := part_names "song.mp3" 3 in
  let w := Cases.parts_with_gap in
  ∃ w',
    sendParts (Scenario.env 3 None) parts 7 w = (Returns None, w') ∧
    new_events w w' = delivery_events 7 parts ∧
    (∀ part, part ∈ parts → files w' !! part = None) ∧
    (∀ path, path ∉ parts → files w' !! path = files w !! path).
Proof.
  intros parts w.
  apply (sendParts_accepted_cleans_parts (Scenario.env 3 None) parts 7 w).
  intros i part Hpart. unfold parts in Hpart.
  apply list_elem_of_lookup_2, list_elem_of_fmap in Hpart as (j & -> & _).
  reflexivity.
Defined.

Lemma sendParts_failure_leaves_rest_witness :
  let parts := part_names "song.mp3" 3 in
  let w := Cases.parts_with_gap in
  ∃ w',
    sendParts (Scenario.env 3 (Some "song.mp3.part001.mp3")) parts 7 w =
      (Returns (Some "error sending file part: timeout"), w') ∧
    ∀ j part, parts !! j = Some part →
      ((j ≤ 1)%nat → files w' !! part = None) ∧
      ((1 < j)%nat →
         files w' !! part = files w !! part ∧
         part ∉ audio_sent (new_events w w')).
Proof.
  intros parts w.
  apply (sendParts_failure_leaves_rest
           (Scenario.env 3 (Some "song.mp3.part001.mp3")) parts 7 w 1 "timeout").
  - apply (bool_decide_unpack _). vm_compute. exact I.
  - split.
    + intros i part Hi Hpart. destruct i as [|i]; [|lia].
      vm_compute in Hpart. injection Hpart as <-. reflexivity.
    + exists "song.mp3.part001.mp3". split; reflexivity.
Defined.

(** ** What [checkAndSendFile] does and reports *)

Section GateOutcomes.

Context (env : Env).

Lemma Forall_delivery_events (filePath : string) (chatID : Z) (parts : list string) :
  Forall (own_file filePath) parts →
  Forall (delivery_call filePath chatID) (delivery_events chatID parts).
Proof.
  induction 1 as [|part rest Hpart _ IH]; [constructor|].
  unfold delivery_events; simpl.
  apply Forall_cons. split; [by split|].
  apply Forall_cons. by split.
Qed.

Lemma Forall_own_parts (filePath : string) (n k : nat) :
  Forall (own_file filePath) (take k (part_names filePath n)).
Proof.
  apply Forall_forall. intros part [i ->]%elem_of_taken_parts.
  right. by exists i.
Qed.

Lemma sendParts_error_shape (parts : list string) (chatID : Z) (w w' : World)
    (err : option string) :
  sendParts env parts chatID w = (Returns err, w') →
  err = None ∨ ∃ e, err = Some ("error sending file part: " +:+ e).
Proof.
  revert w. induction parts as [|part rest IH]; intros w; simpl.
  - intros [= <- _]. by left.
  - unfold mbind, IO_bind. rewrite sendFile_run.
    destruct (tg_send env w (NewAudio chatID part)) as [cause|].
    + intros [= <- _]. right. by eexists.
    + apply IH.
Qed.

(** On the split path with a successful [ffmpeg], the gate hands the
    discovered parts to the loop. *)
Lemma checkAndSendFile_split_sends (filePath : string) (chatID : Z) (w : World)
    (sz : Z) (disk : gmap string Z) (out : string) (n : nat) :
  files w !! filePath = Some sz →
  sz > maxFileSize →
  run_tool env (ffmpeg_call_world filePath w) "ffmpeg" (ffmpeg_args filePath 3136)
    = (disk, out, None) →
  first_missing disk filePath n →
  checkAndSendFile env filePath chatID w =
    sendParts env (part_names filePath n) chatID
      (mkWorld disk
         (trace w ++ [EvStat filePath; exceeds_log; splitting_log 3136;
                      EvExec "ffmpeg" (ffmpeg_args filePath 3136)]
                  ++ map (probe_event filePath) (seq 0 (S n))
                  ++ [split_done_log n])).
Proof.
  intros Hsz Hgt Htool Hn.
  unfold checkAndSendFile. io_simpl. rewrite Hsz.
  rewrite decide_True by lia.
  match goal with
  | |- context [splitFile env _ _ _ ?w1] =>
      change w1 with (split_call_world filePath w)
  end.
  rewrite (splitFile_run_ok env _ _ _ _ 3136 disk out n planned_segment_time Htool Hn).
  do 2 f_equal. unfold split_call_world, record; simpl. by rewrite <- !app_assoc.
Qed.

Ltac delivery_calls :=
  repeat (apply Forall_cons; split); try apply Forall_nil; simpl;
  try done; try (by left); try (split; [done | by left]).

(** Every run of [checkAndSendFile] returns and makes no other calls than
    those of [delivery_call]. *)
Lemma checkAndSendFile_calls (filePath : string) (chatID : Z) (w : World) :
  ∃ (err : option string) (w' : World),
    checkAndSendFile env filePath chatID w = (Returns err, w') ∧
    trace w' = trace w ++ new_events w w' ∧
    Forall (delivery_call filePath chatID) (new_events w w').
Proof.
  destruct (files w !! filePath) as [sz|] eqn:Hsz.
  2:{ eexists _, _. split; [by apply checkAndSendFile_stat_err|].
      unfold record. rewrite new_events_app. split; [done|]. delivery_calls. }
  destruct (decide (sz ≤ maxFileSize)) as [Hle|Hgt].
  { eexists _, _. split; [by eapply checkAndSendFile_direct|].
    unfold after_delivery, record, delivery_events; cbn [files trace mbind].
    rewrite <- app_assoc, new_events_app. split; [done|]. delivery_calls. }
  destruct (run_tool env (ffmpeg_call_world filePath w) "ffmpeg"
              (ffmpeg_args filePath 3136)) as [[disk out] [e|]] eqn:Htool.
  - eexists _, _.
    split; [exact (checkAndSendFile_split_err env filePath chatID w sz disk
                     out e Hsz ltac:(lia) Htool)|].
    rewrite new_events_app. split; [done|]. delivery_calls.
  - destruct (checkAndSendFile_split_ok env filePath chatID w sz disk out
                Hsz ltac:(lia) Htool) as (n & k & err & _ & Hrun & _).
    eexists err, _. split; [exact Hrun|].
    unfold after_delivery; cbn [files trace].
    rewrite <- !app_assoc, new_events_app. split; [done|].
    rewrite !Forall_app. split; [|split; [|split]].
    + delivery_calls.
    + apply Forall_forall. intros e [args ->]%probe_events_only_exec. by right.
    + delivery_calls.
    + apply Forall_delivery_events, Forall_own_parts.
Qed.

(** X7: the error text of [checkAndSendFile] names the stage that failed.
    It is "could not check file size" for a missing file; for a file of at
    most [maxFileSize] bytes the result is the answer of the transport to
    the one send, under "error sending file"; for a larger file a failure
    of [ffmpeg] comes back under "error splitting file", and after a
    successful [ffmpeg] the only possible error is "error sending file
    part". *)
Theorem checkAndSendFile_error_stages (filePath : string) (chatID : Z) (w : World) :
  ∃ (err : option string) (w' : World),
    checkAndSendFile env filePath chatID w = (Returns err, w') ∧
    match files w !! filePath with
    | None =>
        err = Some ("could not check file size: stat " +:+ filePath
                    +:+ ": no such file or directory")
    | Some sz =>
        if decide (sz ≤ maxFileSize) then
          err = String.app "error sending file: " <$>
                  tg_send env (record (EvStat filePath) w) (NewAudio chatID filePath)
        else
          match (run_tool env (ffmpeg_call_world filePath w) "ffmpeg"
                   (ffmpeg_args filePath 3136)).2 with
          | Some e => err = Some ("error splitting file: " +:+ e)
          | None => err = None ∨ ∃ e, err = Some ("error sending file part: " +:+ e)
          end
    end.
Proof.
  destruct (files w !! filePath) as [sz|] eqn:Hsz.
  2:{ eexists _, _. by split; [apply checkAndSendFile_stat_err|]. }
  case_decide as Hle.
  { eexists _, _. by split; [eapply checkAndSendFile_direct|]. }
  destruct (run_tool env (ffmpeg_call_world filePath w) "ffmpeg"
              (ffmpeg_args filePath 3136)) as [[disk out] [e|]] eqn:Htool.
  - eexists _, _.
    by split; [exact (checkAndSendFile_split_err env filePath chatID w sz disk
                        out e Hsz ltac:(lia) Htool)|].
  - destruct (first_missing_exists disk filePath) as (n & _ & Hn).
    pose proof (checkAndSendFile_split_sends filePath chatID w sz disk out n
                  Hsz ltac:(lia) Htool Hn) as Hsends.
    match type of Hsends with
    | _ = sendParts env ?ps chatID ?w1 =>
        destruct (sendParts_prefix env ps chatID w1) as (k & err & Hrun & _ & _)
    end.
    rewrite Hrun in Hsends. eexists err, _. split; [exact Hsends|].
    cbn [snd]. by eapply sendParts_error_shape.
Qed.

End GateOutcomes.

(** ** Splits that deliver nothing, or not everything *)

Section SplitEdges.

Context (env : Env).

Lemma audio_sent_delivery_events (chatID : Z) (parts : list string) :
  audio_sent (delivery_events chatID parts) = parts.
Proof.
  induction parts as [|part rest IH]; [done|].
  unfold delivery_events, audio_sent in *.
  rewrite bind_cons, omap_app, IH. done.
Qed.

Lemma removed_delivery_events (chatID : Z) (parts : list string) :
  removed (delivery_events chatID parts) = parts.
Proof.
  induction parts as [|part rest IH]; [done|].
  unfold delivery_events, removed in *.
  rewrite bind_cons, omap_app, IH. done.
Qed.

Lemma audio_sent_probes (filePath : string) (l : list nat) :
  audio_sent (map (probe_event filePath) l) = [].
Proof. by induction l. Qed.

Lemma removed_probes (filePath : string) (l : list nat) :
  removed (map (probe_event filePath) l) = [].
Proof. by induction l. Qed.

(** X8: when [ffmpeg] fails, [checkAndSendFile] sends nothing and removes
    nothing: the disk is left exactly as [ffmpeg] left it, with the source
    file and any part written before the failure. *)
Theorem ffmpeg_failure_cleans_nothing (filePath : string) (chatID : Z)
    (w : World) (sz : Z) (disk : gmap string Z) (out e : string) :
  files w !! filePath = Some sz →
  sz > maxFileSize →
  run_tool env (ffmpeg_call_world filePath w) "ffmpeg" (ffmpeg_args filePath 3136)
    = (disk, out, Some e) →
  ∃ w',
    checkAndSendFile env filePath chatID w =
      (Returns (Some ("error splitting file: " +:+ e)), w') ∧
    files w' = disk ∧
    audio_sent (new_events w w') = [] ∧
    removed (new_events w w') = [].
Proof.
  intros Hsz Hgt Htool. eexists.
  split; [by eapply checkAndSendFile_split_err|].
  by rewrite new_events_app.
Qed.

(** X9: when [ffmpeg] succeeds but no part 0 is on the disk,
    [checkAndSendFile] reports success although it has sent nothing; it
    removes nothing either, so the source file stays where [ffmpeg] left
    it. *)
Theorem no_parts_is_silent_success (filePath : string) (chatID : Z)
    (w : World) (sz : Z) (disk : gmap string Z) (out : string) :
  files w !! filePath = Some sz →
  sz > maxFileSize →
  run_tool env (ffmpeg_call_world filePath w) "ffmpeg" (ffmpeg_args filePath 3136)
    = (disk, out, None) →
  disk !! partFilename filePath 0 = None →
  ∃ w',
    checkAndSendFile env filePath chatID w = (Returns None, w') ∧
    files w' = disk ∧
    audio_sent (new_events w w') = [] ∧
    removed (new_events w w') = [].
Proof.
  intros Hsz Hgt Htool Hzero.
  assert (first_missing disk filePath 0) as Hn.
  { split; [intros i Hi; lia | done]. }
  rewrite (checkAndSendFile_split_sends env filePath chatID w sz disk out 0
             Hsz Hgt Htool Hn).
  eexists. split; [reflexivity|]. by rewrite new_events_app.
Qed.

(** X10: part files behind the first missing index are not discovered:
    whatever the delivery does, such a file is neither sent nor removed and
    stays on the disk as [ffmpeg] left it. *)
Theorem parts_behind_gap_are_ignored (filePath : string) (chatID : Z)
    (w : World) (sz : Z) (disk : gmap string Z) (out : string) (n j : nat) :
  files w !! filePath = Some sz →
  sz > maxFileSize →
  run_tool env (ffmpeg_call_world filePath w) "ffmpeg" (ffmpeg_args filePath 3136)
    = (disk, out, None) →
  first_missing disk filePath n →
  (n < j)%nat →
  ∃ err w',
    checkAndSendFile env filePath chatID w = (Returns err, w') ∧
    files w' !! partFilename filePath j = disk !! partFilename filePath j ∧
    (partFilename filePath j ∉ audio_sent (new_events w w')) ∧
    (partFilename filePath j ∉ removed (new_events w w')).
Proof.
  intros Hsz Hgt Htool Hn Hj.
  rewrite (checkAndSendFile_split_sends env filePath chatID w sz disk out n
             Hsz Hgt Htool Hn).
  match goal with
  | |- context [sendParts env ?ps chatID ?w1] =>
      destruct (sendParts_prefix env ps chatID w1) as (k & err & Hrun & _ & _)
  end.
  rewrite Hrun. eexists err, _. split; [reflexivity|].
  assert (partFilename filePath j ∉ take k (part_names filePath n)) as Hout.
  { intros Hin%(subseteq_take k). unfold part_names in Hin.
    apply list_elem_of_fmap in Hin as (i & Heq & Hi).
    apply partFilename_inj in Heq as ->. apply elem_of_seq in Hi. lia. }
  unfold after_delivery; cbn [files trace].
  rewrite <- !app_assoc, new_events_app.
  split; [by apply lookup_after_deletes|].
  unfold audio_sent, removed. rewrite !omap_app.
  fold (audio_sent (map (probe_event filePath) (seq 0 (S n)))).
  fold (removed (map (probe_event filePath) (seq 0 (S n)))).
  fold (audio_sent (delivery_events chatID (take k (part_names filePath n)))).
  fold (removed (delivery_events chatID (take k (part_names filePath n)))).
  rewrite audio_sent_probes, removed_probes.
  rewrite audio_sent_delivery_events, removed_delivery_events.
  done.
Qed.

End SplitEdges.

Lemma ffmpeg_failure_cleans_nothing_witness :
  let env := Cases.env (Some (maxFileSize + 1)) None None in
  let w := Scenario.big_song in
  ∃ w',
    checkAndSendFile env "song.mp3" 7 w =
      (Returns (Some "error splitting file: exit status 1"), w') ∧
    files w' = <["song.mp3.part000.mp3" := 500]> (files w) ∧
    audio_sent (new_events w w') = [] ∧
    removed (new_events w w') = [].
Proof.
  intros env w.
  apply (ffmpeg_failure_cleans_nothing env "song.mp3" 7 w (maxFileSize + 1)
           (<["song.mp3.part000.mp3" := 500]> (files w)) "Conversion failed!"
           "exit status 1"); [reflexivity | lia | reflexivity].
Defined.

Lemma no_parts_is_silent_success_witness :
  let env := Scenario.env 0 None in
  let w := Scenario.big_song in
  ∃ w',
    checkAndSendFile env "song.mp3" 7 w = (Returns None, w') ∧
    files w' = files w ∧
    audio_sent (new_events w w') = [] ∧
    removed (new_events w w') = [].
Proof.
  intros env w.
  apply (no_parts_is_silent_success env "song.mp3" 7 w (maxFileSize + 1)
           (files w) "done"); [reflexivity | lia | reflexivity | reflexivity].
Defined.

Lemma parts_behind_gap_are_ignored_witness :
  let env := Scenario.env 0 None in
  let w := Cases.parts_with_gap in
  ∃ err w',
    checkAndSendFile env "song.mp3" 7 w = (Returns err, w') ∧
    files w' !! partFilename "song.mp3" 4 = files w !! partFilename "song.mp3" 4 ∧
    (partFilename "song.mp3" 4 ∉ audio_sent (new_events w w')) ∧
    (partFilename "song.mp3" 4 ∉ removed (new_events w w')).
Proof.
  intros env w.
  apply (parts_behind_gap_are_ignored env "song.mp3" 7 w (maxFileSize + 1)
           (files w) "done" 3 4); [reflexivity | lia | reflexivity | | lia].
  split; [|reflexivity].
  intros i Hi.
  assert (i = 0 ∨ i = 1 ∨ i = 2)%nat as [->|[->| ->]] by lia; by eexists.
Defined.

(** ** Whole requests *)

Section WholeRequests.

Context (env : Env).

Lemma handleMessage_invalid_run (message : Message) (w : World) :
  isValidYouTubeURL (TrimSpace (Text message)) = false →
  handleMessage env message w =
    (Returns (), after_reply env (rejection message) w).
Proof.
  intros Hinvalid. unfold handleMessage. rewrite Hinvalid. cbn [negb].
  apply reply_run.
Qed.

(** The calls of a request with an accepted text: the acknowledgement,
    the download, and then either the report of its failure or the
    delivery, the report of its failure if it failed, and the removal of
    the [.m4a] path. *)
Lemma handleMessage_valid_events (message : Message) (w : World) :
  isValidYouTubeURL (TrimSpace (Text message)) = true →
  let chat := Chat_ID message in
  let stem := request_stem env message w in
  let w3 := download_done_world env message w in
  let result := download_result env message w in
  ∃ (w' : World) (tail : list Event),
    handleMessage env message w = (Returns (), w') ∧
    new_events w w' =
      reply_events env (ack_message message) w ++
      download_events chat (request_time env message w) (TrimSpace (Text message))
        result.1.2 result.2 ++ tail ∧
    match result.2 with
    | Some e =>
        tail = report_events env chat "Error downloading mp3: " e w3 ∧
        files w' = result.1.1
    | None =>
        ∃ (err : option string) (w4 : World),
          checkAndSendFile env (stem +:+ ".mp3") chat w3 = (Returns err, w4) ∧
          Forall (delivery_call (stem +:+ ".mp3") chat) (new_events w3 w4) ∧
          tail = new_events w3 w4 ++
                 report_if env chat "Error sending mp3: " err w4 ++
                 [EvRemove (stem +:+ ".m4a")] ∧
          files w' = delete (stem +:+ ".m4a") (files w4)
    end.
Proof.
  intros Hvalid chat stem w3 result.
  pose proof (handleMessage_valid_run env message w Hvalid) as Hrun.
  cbv zeta in Hrun. fold chat stem w3 result in Hrun.
  assert (trace w3 = trace w ++ reply_events env (ack_message message) w ++
            download_events chat (request_time env message w)
              (TrimSpace (Text message)) result.1.2 result.2 ∧
          files w3 = result.1.1) as [Htr3 Hdisk3].
  { unfold w3, download_done_world. fold result.
    destruct result as [[disk out] err]. cbn [fst snd files trace].
    unfold clock_world, after_reply; cbn [trace]. by rewrite <- app_assoc. }
  destruct (result.2) as [e|].
  - eexists _, _. split; [exact Hrun|].
    unfold new_events; cbn [files trace]. rewrite Htr3.
    rewrite <- !app_assoc, drop_app_length. done.
  - destruct (checkAndSendFile_calls env (stem +:+ ".mp3") chat w3)
      as (err & w4 & Hcheck & Htr4 & Hcalls).
    rewrite Hcheck in Hrun.
    eexists _, _. split; [exact Hrun|].
    split; [|exists err, w4; split; [done|split; [done|split; [reflexivity|]]]].
    + unfold new_events at 1, request_end_world, after_report, report_if.
      cbn [files trace].
      destruct err as [e|]; cbn [files trace]; rewrite Htr4, Htr3;
        rewrite <- !app_assoc, drop_app_length; [done|].
      by rewrite app_nil_l.
    + unfold request_end_world, after_report. by destruct err.
Qed.

End WholeRequests.

Section RequestOutcomes.

Context (env : Env).

Lemma omap_none {A B : Type} (f : A → option B) (l : list A) :
  Forall (λ x, f x = None) l → omap f l = [].
Proof. induction 1 as [|x l Hx _ IH]; simpl; [done|]. by rewrite Hx. Qed.

Lemma text_sent_delivery (filePath : string) (chatID : Z) (evs : list Event) :
  Forall (delivery_call filePath chatID) evs → text_sent evs = [].
Proof.
  intros Hcalls. apply omap_none. eapply Forall_impl; [exact Hcalls|].
  intros [[]| | | | |]; simpl; done.
Qed.

Lemma text_sent_reply (c : Chattable) (w : World) :
  text_sent (reply_events env c w) =
    match c with NewMessage _ text => [text] | NewAudio _ _ => [] end.
Proof. unfold reply_events. by destruct c, (tg_send env w _). Qed.

Lemma audio_removed_reply (chatID : Z) (text : string) (w : World) :
  audio_sent (reply_events env (NewMessage chatID text) w) = [] ∧
  removed (reply_events env (NewMessage chatID text) w) = [].
Proof. unfold reply_events. by destruct (tg_send env w _). Qed.

Lemma exec_not_in_reply (c : Chattable) (w : World) (name : string)
    (args : list string) :
  EvExec name args ∉ reply_events env c w.
Proof.
  unfold reply_events. intros Hin.
  destruct (tg_send env w c); elem_cases Hin; discriminate.
Qed.

(** X11: with the configured size limit and bitrate no request makes the
    handler panic or probe for ever: every run of [handleMessage] returns. *)
Theorem handleMessage_always_returns (message : Message) (w : World) :
  ∃ w', handleMessage env message w = (Returns (), w').
Proof.
  destruct (isValidYouTubeURL (TrimSpace (Text message))) eqn:Hvalid.
  - destruct (handleMessage_valid_events env message w Hvalid)
      as (w' & _ & Hrun & _). by exists w'.
  - eexists. by apply handleMessage_invalid_run.
Qed.

(** X12: [yt-dlp] is run exactly for the texts the validation accepts, and
    then with the command line built from the chat, the clock and the
    trimmed text; no other [yt-dlp] call is made. *)
Theorem acquisition_iff_valid (message : Message) (w : World) :
  let w' := (handleMessage env message w).2 in
  let args := ytdlp_args (Chat_ID message) (request_time env message w)
                (TrimSpace (Text message)) in
  ((∃ args', EvExec "yt-dlp" args' ∈ new_events w w') ↔
     isValidYouTubeURL (TrimSpace (Text message)) = true) ∧
  (isValidYouTubeURL (TrimSpace (Text message)) = true →
     EvExec "yt-dlp" args ∈ new_events w w') ∧
  (∀ args', EvExec "yt-dlp" args' ∈ new_events w w' → args' = args).
Proof.
  intros w' args.
  destruct (isValidYouTubeURL (TrimSpace (Text message))) eqn:Hvalid.
  - destruct (handleMessage_valid_events env message w Hvalid)
      as (w1 & tail & Hrun & Hev & Htail).
    cbv zeta in Hev, Htail.
    assert (w' = w1) as -> by (unfold w'; by rewrite Hrun). clear Hrun.
    assert (EvExec "yt-dlp" args ∈ new_events w w1) as Hcalled.
    { rewrite Hev. apply elem_of_app. right. apply elem_of_app. left.
      unfold download_events. apply elem_of_app. left.
      apply elem_of_cons. right. apply elem_of_cons. by left. }
    split; [split; [done | intros _; by exists args]|].
    split; [done|].
    intros args'. rewrite Hev, !elem_of_app. intros [Hin|[Hin|Hin]].
    + by apply exec_not_in_reply in Hin.
    + unfold download_events in Hin.
      destruct (download_result env message w).2;
        apply elem_of_app in Hin as [Hin|Hin]; elem_cases Hin;
        try discriminate; by injection Hin.
    + destruct (download_result env message w).2 as [e|].
      * destruct Htail as [-> _]. unfold report_events in Hin.
        apply elem_of_app in Hin as [Hin|Hin].
        -- by apply exec_not_in_reply in Hin.
        -- elem_cases Hin; discriminate.
      * destruct Htail as (err & w4 & _ & Hcalls & -> & _).
        rewrite !elem_of_app in Hin. destruct Hin as [Hin|[Hin|Hin]].
        -- rewrite Forall_forall in Hcalls. apply Hcalls in Hin.
           by destruct Hin.
        -- destruct err as [e|]; simpl in Hin; [|by apply elem_of_nil in Hin].
           unfold report_events in Hin. apply elem_of_app in Hin as [Hin|Hin].
           ++ by apply exec_not_in_reply in Hin.
           ++ elem_cases Hin; discriminate.
        -- elem_cases Hin; discriminate.
  - assert (w' = after_reply env (rejection message) w) as ->.
    { unfold w'. by rewrite handleMessage_invalid_run. }
    unfold after_reply. rewrite new_events_app.
    split; [split; [|done]|split; [done|]].
    + intros [args' Hin]. by apply exec_not_in_reply in Hin.
    + intros args' Hin. by apply exec_not_in_reply in Hin.
Qed.

End RequestOutcomes.

Section RequestTraces.

Context (env : Env).

Lemma sent_removed_download (chatID ts : Z) (url out : string) (err : option string) :
  text_sent (download_events chatID ts url out err) = [] ∧
  audio_sent (download_events chatID ts url out err) = [] ∧
  removed (download_events chatID ts url out err) = [].
Proof. unfold download_events. by destruct err. Qed.

Lemma sent_removed_report (chatID : Z) (what e : string) (w : World) :
  text_sent (report_events env chatID what e w) = [what +:+ e] ∧
  audio_sent (report_events env chatID what e w) = [] ∧
  removed (report_events env chatID what e w) = [].
Proof.
  unfold report_events, reply_events.
  by destruct (tg_send env w _).
Qed.

(** X13: when [yt-dlp] fails, the handler tells the chat "Error downloading
    mp3: " with the error of the tool and returns; it sends no audio and
    removes no file, so the disk stays as the tool left it.  Its last log
    line does not print the error of the download but the answer of the
    transport to that reply. *)
Theorem failed_download_is_reported (message : Message) (w : World) (e : string) :
  isValidYouTubeURL (TrimSpace (Text message)) = true →
  (download_result env message w).2 = Some e →
  let chat := Chat_ID message in
  let w3 := download_done_world env message w in
  ∃ w',
    handleMessage env message w = (Returns (), w') ∧
    files w' = (download_result env message w).1.1 ∧
    text_sent (new_events w w') =
      ["Starting to process your request..."; "Error downloading mp3: " +:+ e] ∧
    audio_sent (new_events w w') = [] ∧
    removed (new_events w w') = [] ∧
    last (new_events w w') =
      Some (EvLog ("Error downloading mp3: " +:+
                   fmt_err (tg_send env w3
                              (NewMessage chat ("Error downloading mp3: " +:+ e))))).
Proof.
  intros Hvalid Hfail chat w3.
  destruct (handleMessage_valid_events env message w Hvalid)
    as (w' & tail & Hrun & Hev & Htail).
  cbv zeta in Hev, Htail. rewrite Hfail in Hev, Htail.
  destruct Htail as [-> Hdisk].
  exists w'. split; [done|]. split; [done|]. rewrite Hev.
  unfold text_sent, audio_sent, removed. rewrite !omap_app.
  fold (text_sent (reply_events env (ack_message message) w)).
  rewrite text_sent_reply.
  destruct (audio_removed_reply env (Chat_ID message)
              "Starting to process your request..." w) as [Ha Hr].
  unfold audio_sent, removed, ack_message in *. rewrite Ha, Hr.
  match goal with
  | |- context [download_events ?c ?t ?u ?o ?r] =>
      destruct (sent_removed_download c t u o r) as (Ht1 & Ha1 & Hr1)
  end.
  unfold text_sent, audio_sent, removed in *. rewrite Ht1, Ha1, Hr1.
  destruct (sent_removed_report (Chat_ID message) "Error downloading mp3: " e
              (download_done_world env message w)) as (Ht2 & Ha2 & Hr2).
  unfold text_sent, audio_sent, removed in *. rewrite Ht2, Ha2, Hr2.
  repeat split; try done.
  unfold report_events. by rewrite !app_assoc, last_snoc.
Qed.

End RequestTraces.

Section RequestResults.

Context (env : Env).

Lemma download_done_world_files (message : Message) (w : World) :
  files (download_done_world env message w) = (download_result env message w).1.1.
Proof.
  unfold download_done_world.
  by destruct (download_result env message w) as [[disk out] err].
Qed.

Lemma sent_removed_report_if (chatID : Z) (what : string) (err : option string)
    (w : World) :
  text_sent (report_if env chatID what err w) =
    match err with Some e => [what +:+ e] | None => [] end ∧
  audio_sent (report_if env chatID what err w) = [] ∧
  removed (report_if env chatID what err w) = [].
Proof. destruct err as [e|]; [apply sent_removed_report | done]. Qed.

(** X14: a download of at most [maxFileSize] bytes is sent as one audio
    file.  Whether or not the transport accepts it, the mp3 file and the
    [.m4a] path are removed, in this order, and nothing else; the chat gets
    the acknowledgement and, if the send was refused, one error text. *)
Theorem small_download_is_sent_whole (message : Message) (w : World) (sz : Z) :
  isValidYouTubeURL (TrimSpace (Text message)) = true →
  (download_result env message w).2 = None →
  let chat := Chat_ID message in
  let stem := request_stem env message w in
  let disk := (download_result env message w).1.1 in
  let w3 := download_done_world env message w in
  disk !! (stem +:+ ".mp3") = Some sz →
  sz ≤ maxFileSize →
  ∃ w',
    handleMessage env message w = (Returns (), w') ∧
    files w' = delete (stem +:+ ".m4a") (delete (stem +:+ ".mp3") disk) ∧
    audio_sent (new_events w w') = [stem +:+ ".mp3"] ∧
    removed (new_events w w') = [stem +:+ ".mp3"; stem +:+ ".m4a"] ∧
    text_sent (new_events w w') =
      "Starting to process your request..." ::
      match tg_send env (record (EvStat (stem +:+ ".mp3")) w3)
              (NewAudio chat (stem +:+ ".mp3")) with
      | Some e => ["Error sending mp3: error sending file: " +:+ e]
      | None => []
      end.
Proof.
  intros Hvalid Hok chat stem disk w3 Hsz Hle.
  destruct (handleMessage_valid_events env message w Hvalid)
    as (w' & tail & Hrun & Hev & Htail).
  cbv zeta in Hev, Htail. rewrite Hok in Hev, Htail.
  destruct Htail as (err & w4 & Hcheck & _ & -> & Hfiles).
  fold chat stem w3 in Hcheck, Hev, Hfiles.
  assert (files w3 !! (stem +:+ ".mp3") = Some sz) as Hsz3.
  { unfold w3. by rewrite download_done_world_files. }
  rewrite (checkAndSendFile_direct env _ chat w3 sz Hsz3 Hle) in Hcheck.
  injection Hcheck as <- <-.
  exists w'. split; [done|]. split.
  { rewrite Hfiles. unfold after_delivery, record; cbn [files foldl].
    unfold w3. by rewrite download_done_world_files. }
  rewrite Hev. unfold text_sent, audio_sent, removed. rewrite !omap_app.
  fold (text_sent (reply_events env (ack_message message) w)).
  rewrite text_sent_reply.
  destruct (audio_removed_reply env (Chat_ID message)
              "Starting to process your request..." w) as [Ha Hr].
  unfold audio_sent, removed, ack_message in *. rewrite Ha, Hr.
  match goal with
  | |- context [download_events ?c ?t ?u ?o ?r] =>
      destruct (sent_removed_download c t u o r) as (Ht1 & Ha1 & Hr1)
  end.
  unfold text_sent, audio_sent, removed in *. rewrite Ht1, Ha1, Hr1.
  match goal with
  | |- context [report_if env ?c ?wh ?er ?w5] =>
      destruct (sent_removed_report_if c wh er w5) as (Ht2 & Ha2 & Hr2)
  end.
  unfold text_sent, audio_sent, removed in *. rewrite Ht2, Ha2, Hr2.
  unfold after_delivery, record, new_events, delivery_events; cbn [files trace].
  rewrite <- !app_assoc, drop_app_length. cbn.
  by destruct (tg_send env _ _).
Qed.

(** X15: once the download has succeeded, the last thing the handler does
    is to remove the [.m4a] path, whatever became of the delivery: the
    path is off the disk when the handler returns. *)
Theorem m4a_is_always_removed (message : Message) (w : World) :
  isValidYouTubeURL (TrimSpace (Text message)) = true →
  (download_result env message w).2 = None →
  let stem := request_stem env message w in
  ∃ w',
    handleMessage env message w = (Returns (), w') ∧
    last (new_events w w') = Some (EvRemove (stem +:+ ".m4a")) ∧
    files w' !! (stem +:+ ".m4a") = None.
Proof.
  intros Hvalid Hok stem.
  destruct (handleMessage_valid_events env message w Hvalid)
    as (w' & tail & Hrun & Hev & Htail).
  cbv zeta in Hev, Htail. rewrite Hok in Hev, Htail.
  destruct Htail as (err & w4 & _ & _ & -> & Hfiles).
  exists w'. split; [done|]. split.
  - rewrite Hev. by rewrite !app_assoc, last_snoc.
  - rewrite Hfiles. apply lookup_delete_eq.
Qed.

(** X16: what the chat is told.  A text that is not accepted gets the
    validation message and nothing else.  An accepted text gets the
    acknowledgement, followed by exactly one error text when the download
    or the delivery returned an error, and by nothing when both
    succeeded. *)
Theorem replies_to_the_chat (message : Message) (w : World) :
  let chat := Chat_ID message in
  let stem := request_stem env message w in
  let w3 := download_done_world env message w in
  ∃ w',
    handleMessage env message w = (Returns (), w') ∧
    text_sent (new_events w w') =
      if isValidYouTubeURL (TrimSpace (Text message)) then
        "Starting to process your request..." ::
        match (download_result env message w).2 with
        | Some e => ["Error downloading mp3: " +:+ e]
        | None =>
            match returned (checkAndSendFile env (stem +:+ ".mp3") chat w3) with
            | Some (Some e) => ["Error sending mp3: " +:+ e]
            | _ => []
            end
        end
      else ["Please send a valid YouTube video URL."].
Proof.
  intros chat stem w3.
  destruct (isValidYouTubeURL (TrimSpace (Text message))) eqn:Hvalid.
  2:{ eexists. split; [by apply handleMessage_invalid_run|].
      unfold after_reply. rewrite new_events_app. apply text_sent_reply. }
  destruct (handleMessage_valid_events env message w Hvalid)
    as (w' & tail & Hrun & Hev & Htail).
  cbv zeta in Hev, Htail. exists w'. split; [done|].
  rewrite Hev. unfold text_sent. rewrite !omap_app.
  fold (text_sent (reply_events env (ack_message message) w)).
  rewrite text_sent_reply.
  match goal with
  | |- context [download_events ?c ?t ?u ?o ?r] =>
      destruct (sent_removed_download c t u o r) as (Ht1 & _ & _)
  end.
  unfold text_sent in *. rewrite Ht1. cbn [app ack_message]. f_equal.
  destruct (download_result env message w).2 as [e|].
  - destruct Htail as [-> _].
    by destruct (sent_removed_report env (Chat_ID message)
                   "Error downloading mp3: " e (download_done_world env message w))
      as (Ht2 & _ & _).
  - destruct Htail as (err & w4 & Hcheck & Hcalls & -> & _).
    fold chat stem w3 in Hcheck. unfold returned. rewrite Hcheck. cbn [fst].
    rewrite !omap_app.
    pose proof (text_sent_delivery _ _ _ Hcalls) as Ht3.
    destruct (sent_removed_report_if (Chat_ID message) "Error sending mp3: "
                err w4) as (Ht4 & _ & _).
    unfold text_sent in *. rewrite Ht3, Ht4. by destruct err.
Qed.

End RequestResults.

Lemma failed_download_is_reported_witness :
  let env := Cases.env None None None in
  let w := Scenario.empty_world in
  ∃ w',
    handleMessage env Cases.request w = (Returns (), w') ∧
    files w' = files w ∧
    text_sent (new_events w w') =
      ["Starting to process your request...";
       "Error downloading mp3: exit status 1"] ∧
    audio_sent (new_events w w') = [] ∧
    removed (new_events w w') = [] ∧
    last (new_events w w') = Some (EvLog "Error downloading mp3: <nil>").
Proof.
  intros env w.
  apply (failed_download_is_reported env Cases.request w "exit status 1").
  - vm_compute. reflexivity.
  - reflexivity.
Defined.

Lemma small_download_is_sent_whole_witness :
  let env := Cases.env (Some 1000) None (Some "download_7_42.mp3") in
  let w := Scenario.empty_world in
  ∃ w',
    handleMessage env Cases.request w = (Returns (), w') ∧
    files w' = delete "download_7_42.m4a"
                 (delete "download_7_42.mp3" (<["download_7_42.mp3" := 1000]> ∅)) ∧
    audio_sent (new_events w w') = ["download_7_42.mp3"] ∧
    removed (new_events w w') = ["download_7_42.mp3"; "download_7_42.m4a"] ∧
    text_sent (new_events w w') =
      ["Starting to process your request...";
       "Error sending mp3: error sending file: timeout"].
Proof.
  intros env w.
  apply (small_download_is_sent_whole env Cases.request w 1000).
  - vm_compute. reflexivity.
  - reflexivity.
  - reflexivity.
  - unfold maxFileSize. lia.
Defined.

Lemma m4a_is_always_removed_witness :
  let env := Cases.env (Some (maxFileSize + 1)) None None in
  let w := Scenario.empty_world in
  ∃ w',
    handleMessage env Cases.request w = (Returns (), w') ∧
    last (new_events w w') = Some (EvRemove "download_7_42.m4a") ∧
    files w' !! "download_7_42.m4a" = None.
Proof.
  intros env w.
  apply (m4a_is_always_removed env Cases.request w).
  - vm_compute. reflexivity.
  - reflexivity.
Defined.

(** A request whose segmentation fails, computed: the chat gets the
    acknowledgement and the error, and the downloaded file and the part
    [ffmpeg] had written stay on the disk. *)
Example failed_split_request :
  let w := Scenario.empty_world in
  let r := handleMessage (Cases.env (Some (maxFileSize + 1)) None None) Cases.request w in
  returned r = Some () ∧
  text_sent (new_events w r.2) =
    ["Starting to process your request...";
     "Error sending mp3: error splitting file: exit status 1"] ∧
  audio_sent (new_events w r.2) = [] ∧
  removed (new_events w r.2) = ["download_7_42.m4a"] ∧
  files r.2 !! "download_7_42.mp3" = Some (maxFileSize + 1) ∧
  files r.2 !! "download_7_42.mp3.part000.mp3" = Some 500.
Proof. repeat split; vm_compute; reflexivity. Qed.

(** ** File names of different requests *)

Section FileNames.

Lemma chars_app (s t : string) : chars (s +:+ t) = chars s ++ chars t.
Proof.
  induction s as [|c s IH]; [done|].
  change (String c s +:+ t) with (String c (s +:+ t)). simpl. by rewrite IH.
Qed.

Lemma string_app_assoc (a b c : string) : (a +:+ b) +:+ c = a +:+ (b +:+ c).
Proof.
  induction a as [|x a IH]; [done|].
  change ((String x a +:+ b) +:+ c) with (String x ((a +:+ b) +:+ c)).
  change (String x a +:+ (b +:+ c)) with (String x (a +:+ (b +:+ c))).
  by rewrite IH.
Qed.

(** Two strings that agree after a separator which occurs in neither of the
    parts before it agree part by part. *)
Lemma split_at_separator (sep : Ascii.ascii) (a a' b b' : string) :
  sep ∉ chars a → sep ∉ chars a' →
  a +:+ String sep b = a' +:+ String sep b' →
  a = a' ∧ b = b'.
Proof.
  revert a'. induction a as [|x a IH]; intros [|x' a'] Ha Ha' Heq.
  - by injection Heq.
  - change (String sep b = String x' (a' +:+ String sep b')) in Heq.
    injection Heq as -> _. exfalso. apply Ha'. simpl. by left.
  - change (String x (a +:+ String sep b) = String sep b') in Heq.
    injection Heq as -> _. exfalso. apply Ha. simpl. by left.
  - change (String x (a +:+ String sep b) = String x' (a' +:+ String sep b')) in Heq.
    injection Heq as -> Heq.
    simpl in Ha, Ha'. apply not_elem_of_cons in Ha as [_ Ha], Ha' as [_ Ha'].
    destruct (IH a' Ha Ha' Heq) as [-> ->]. done.
Qed.

Lemma pretty_N_go_chars (x : N) (s : string) (c : Ascii.ascii) :
  c ∈ chars (pretty_N_go x s) → c ∈ chars "0123456789" ∨ c ∈ chars s.
Proof.
  revert s. induction (N.lt_wf_0 x) as [x _ IH]; intros s.
  destruct (decide (0 < x)%N) as [Hpos|Hzero].
  - rewrite pretty_N_go_step by done. intros Hin.
    apply (IH (x `div` 10)%N) in Hin as [Hin|Hin];
      [by left | | apply N.div_lt; lia].
    simpl in Hin. apply elem_of_cons in Hin as [->|Hin]; [|by right].
    left. unfold pretty_N_char.
    repeat case_match; apply (bool_decide_unpack _); by vm_compute.
  - assert (x = 0%N) as -> by lia. rewrite pretty_N_go_0. by right.
Qed.

Lemma fmt_d_chars (x : Z) (c : Ascii.ascii) :
  c ∈ chars (fmt_d x) → c ∈ chars "0123456789-".
Proof.
  assert (∀ p : positive, c ∈ chars (pretty p) → c ∈ chars "0123456789") as Hpos.
  { intros p. unfold pretty, pretty_positive, pretty, pretty_N.
    rewrite decide_False by done.
    intros [Hin|Hin]%pretty_N_go_chars; [done|by apply elem_of_nil in Hin]. }
  assert (chars "0123456789-" = chars "0123456789" ++ chars "-") as -> by done.
  unfold fmt_d, pretty, pretty_Z. destruct x as [|p|p].
  - intros Hin. apply elem_of_app. left.
    simpl in Hin. apply list_elem_of_singleton in Hin as ->.
    apply (bool_decide_unpack _). by vm_compute.
  - intros Hin. apply elem_of_app. left. by apply (Hpos p).
  - change (c ∈ chars ("-" +:+ pretty p) → c ∈ chars "0123456789" ++ chars "-").
    rewrite chars_app. intros [Hin|Hin]%elem_of_app; apply elem_of_app.
    + by right.
    + left. by apply (Hpos p).
Qed.

Lemma fmt_d_without (x : Z) (c : Ascii.ascii) :
  c ∉ chars "0123456789-" → c ∉ chars (fmt_d x).
Proof. intros Hc Hin. by apply Hc, (fmt_d_chars x). Qed.

Lemma download_stem_no_dot (chatID timestamp : Z) :
  Ascii.ascii_of_nat 46 ∉ chars (download_stem chatID timestamp).
Proof.
  assert (Ascii.ascii_of_nat 46 ∉ chars "0123456789-") as Hdot.
  { apply (bool_decide_unpack _). by vm_compute. }
  unfold download_stem. rewrite !chars_app, !elem_of_app.
  intros [Hin|[Hin|[Hin|Hin]]].
  - revert Hin. apply (bool_decide_unpack _). by vm_compute.
  - by apply (fmt_d_without chatID) in Hdot.
  - revert Hin. apply (bool_decide_unpack _). by vm_compute.
  - by apply (fmt_d_without timestamp) in Hdot.
Qed.

(** X17: the file names of a request are its own.  The names derived from
    two pairs of chat and time agree only when the pairs agree; an mp3 name
    is never an [.m4a] name, a part name is never a download name, and two
    part names agree only for the same request and the same index. *)
Theorem download_names_distinct (c t c' t' : Z) (i j : nat) :
  let stem := download_stem c t in
  let stem' := download_stem c' t' in
  (stem = stem' → c = c' ∧ t = t') ∧
  stem +:+ ".mp3" ≠ stem' +:+ ".m4a" ∧
  partFilename (stem +:+ ".mp3") i ≠ stem' +:+ ".mp3" ∧
  partFilename (stem +:+ ".mp3") i ≠ stem' +:+ ".m4a" ∧
  (partFilename (stem +:+ ".mp3") i = partFilename (stem' +:+ ".mp3") j →
   c = c' ∧ t = t' ∧ i = j).
Proof.
  intros stem stem'.
  assert (stem = stem' → c = c' ∧ t = t') as Hstem.
  { unfold stem, stem', download_stem. intros Heq.
    apply (inj (String.app "download_")) in Heq.
    assert (Ascii.ascii_of_nat 95 ∉ chars "0123456789-") as Hus.
    { apply (bool_decide_unpack _). by vm_compute. }
    apply (split_at_separator (Ascii.ascii_of_nat 95)) in Heq as [Hc Ht];
      [|by apply fmt_d_without..].
    split; by apply (inj pretty). }
  pose proof (download_stem_no_dot c t) as Hdot.
  pose proof (download_stem_no_dot c' t') as Hdot'.
  fold stem in Hdot. fold stem' in Hdot'.
  split; [done|]. split; [|split; [|split]].
  - intros Heq.
    by apply (split_at_separator (Ascii.ascii_of_nat 46)) in Heq as [_ Heq].
  - unfold partFilename. rewrite string_app_assoc. intros Heq.
    by apply (split_at_separator (Ascii.ascii_of_nat 46)) in Heq as [_ Heq].
  - unfold partFilename. rewrite string_app_assoc. intros Heq.
    by apply (split_at_separator (Ascii.ascii_of_nat 46)) in Heq as [_ Heq].
  - intros Heq. assert (stem = stem') as Hsame.
    { unfold partFilename in Heq. rewrite !string_app_assoc in Heq.
      by apply (split_at_separator (Ascii.ascii_of_nat 46)) in Heq as [? _]. }
    destruct (Hstem Hsame) as [-> ->]. split; [done|]. split; [done|].
    rewrite Hsame in Heq. by apply partFilename_inj in Heq.
Qed.

End FileNames.

(** ** The byte-cutting [splitFile] *)

Section ByteCutting.

Import GoInt.

Lemma copyLoop_step (filePath : string) (content : list Byte.byte) (c i : Z)
    (fuel offset : nat) (acc : list string) (disk : gmap string (list Byte.byte)) :
  ByteSplit.copyLoop (S fuel) filePath content c i offset acc disk =
    if decide (i < Z.of_nat (length content)) then
      match div i c with
      | None => (Panics "runtime error: integer divide by zero", disk)
      | Some k =>
          ByteSplit.copyLoop fuel filePath content c (wrap64 (i + c))
            (offset + length (ByteSplit.CopyN content offset c))
            (acc ++ [ByteSplit.partFilename filePath k])
            (<[ByteSplit.partFilename filePath k :=
                 ByteSplit.CopyN content offset c]> disk)
      end
    else (Returns (acc, None), disk).
Proof. reflexivity. Qed.













(** X20: the byte-cutting [splitFile] at its edges.  A missing file gives
    the error "could not open file" and no part; an empty file gives no
    part and no error, whatever the chunk size; a chunk size of 0 on a file
    that is not empty panics on the division for the first part name,
    before anything is written. *)
Theorem byte_splitFile_edges (filePath : string) (chunkSize : Z)
    (disk : gmap string (list Byte.byte)) :
  (disk !! filePath = None →
     ByteSplit.splitFile filePath chunkSize disk =
       (Returns ([], Some ("could not open file: open " +:+ filePath
                           +:+ ": no such file or directory")), disk)) ∧
  (disk !! filePath = Some [] →
     ByteSplit.splitFile filePath chunkSize disk = (Returns ([], None), disk)) ∧
  (∀ content, disk !! filePath = Some content → content ≠ [] → chunkSize = 0 →
     ByteSplit.splitFile filePath chunkSize disk =
       (Panics "runtime error: integer divide by zero", disk)).
Proof.
  unfold ByteSplit.splitFile. split; [|split].
  - by intros ->.
  - by intros ->.
  - intros content -> Hne ->. rewrite copyLoop_step.
    destruct content; [done|]. rewrite decide_True by (simpl; lia). done.
Qed.

End ByteCutting.



(** ** The first handler *)

Section FirstHandler.

Context (env : Env).

Lemma early_exec_Run_step {B : Type} (name : string) (args : list string)
    (f : option string → IO B) (w : World) :
  (Early.exec_Run env name args ≫= f) w =
    f (run_tool env w name args).2
      (mkWorld (run_tool env w name args).1.1 (trace w ++ [EvExec name args])).
Proof.
  unfold mbind, IO_bind, Early.exec_Run.
  by destruct (run_tool env w name args) as [[disk out] err].
Qed.

(** X21: the first handler has no size gate and reports no failed
    delivery.  After a successful download it sends the mp3 itself without
    looking at its size, then removes it whether or not the transport took
    it; a refused send is only logged, so the chat is told nothing but the
    acknowledgement. *)
Theorem early_handler_sends_whole_file (message : Message) (w : World) :
  isValidYouTubeURL (TrimSpace (Text message)) = true →
  (Early.download_result env message w).2 = None →
  let chat := Chat_ID message in
  let mp3 := request_stem env message w +:+ ".mp3" in
  let disk := (Early.download_result env message w).1.1 in
  ∃ w',
    Early.handleMessage env message w = (Returns (), w') ∧
    files w' = delete mp3 disk ∧
    audio_sent (new_events w w') = [mp3] ∧
    removed (new_events w w') = [mp3] ∧
    text_sent (new_events w w') = ["Starting to process your request..."] ∧
    ∀ path, EvStat path ∉ new_events w w'.
Proof.
  intros Hvalid Hok chat mp3 disk. subst chat mp3 disk.
  unfold Early.handleMessage. rewrite Hvalid.
  rewrite (reply_step env _ (λ _, _)).
  unfold Early.downloadMP3.
  unfold Early.download_result, download_call_world, clock_world, request_stem,
    request_time, Early.ytdlp_args, clock_world, ack_message in *.
  set (w1 := after_reply env _ w) in *.
  assert (trace w1 = trace w ++ reply_events env
            (NewMessage (Chat_ID message) "Starting to process your request...") w)
    as Htr1 by done.
  unfold mbind at 1, IO_bind at 1.
  rewrite time_Now_step, early_exec_Run_step. rewrite Hok.
  unfold mret at 1, IO_ret at 1. cbv beta iota.
  rewrite bot_Send_step.
  match goal with
  | |- context [tg_send env ?w2 ?c] => destruct (tg_send env w2 c) as [e|]
  end.
  - rewrite log_Println_step. eexists. split; [reflexivity|].
    unfold new_events, record; cbn [files trace]. rewrite Htr1.
    rewrite <- !app_assoc, drop_app_length.
    unfold audio_sent, removed, text_sent. rewrite !omap_app.
    fold (text_sent (reply_events env
            (NewMessage (Chat_ID message) "Starting to process your request...") w)).
    rewrite text_sent_reply.
    destruct (audio_removed_reply env (Chat_ID message)
                "Starting to process your request..." w) as [Ha Hr].
    unfold audio_sent, removed in *. rewrite Ha, Hr.
    repeat split; try done.
    intros path Hin. rewrite !elem_of_app in Hin.
    destruct Hin as [Hin|Hin].
    + unfold reply_events in Hin.
      destruct (tg_send env w _); elem_cases Hin; discriminate.
    + destruct_or?; elem_cases Hin; discriminate.
  - eexists. split; [reflexivity|].
    unfold new_events, record; cbn [files trace]. rewrite Htr1.
    rewrite <- !app_assoc, drop_app_length.
    unfold audio_sent, removed, text_sent. rewrite !omap_app.
    fold (text_sent (reply_events env
            (NewMessage (Chat_ID message) "Starting to process your request...") w)).
    rewrite text_sent_reply.
    destruct (audio_removed_reply env (Chat_ID message)
                "Starting to process your request..." w) as [Ha Hr].
    unfold audio_sent, removed in *. rewrite Ha, Hr.
    repeat split; try done.
    intros path Hin. rewrite !elem_of_app in Hin.
    destruct Hin as [Hin|Hin].
    + unfold reply_events in Hin.
      destruct (tg_send env w _); elem_cases Hin; discriminate.
    + destruct_or?; elem_cases Hin; discriminate.
Qed.
End FirstHandler.

Lemma early_handler_sends_whole_file_witness :
  let env := Cases.env (Some (maxFileSize + 1)) None (Some "download_7_42.mp3") in
  let w := Scenario.empty_world in
  ∃ w',
    Early.handleMessage env Cases.request w = (Returns (), w') ∧
    files w' = delete "download_7_42.mp3"
                 (<["download_7_42.mp3" := maxFileSize + 1]> ∅) ∧
    audio_sent (new_events w w') = ["download_7_42.mp3"] ∧
    removed (new_events w w') = ["download_7_42.mp3"] ∧
    text_sent (new_events w w') = ["Starting to process your request..."] ∧
    ∀ path, EvStat path ∉ new_events w w'.
Proof.
  intros env w.
  apply (early_handler_sends_whole_file env Cases.request w).
  - vm_compute. reflexivity.
  - reflexivity.
Defined.

(** ** What [checkAndSendFile] leaves alone *)

Section Frame.

Context (env : Env).

Lemma removed_own_files (filePath : string) (chatID : Z) (evs : list Event) :
  Forall (delivery_call filePath chatID) evs →
  Forall (own_file filePath) (removed evs).
Proof.
  induction 1 as [|e evs He _ IH]; [constructor|].
  unfold removed in *. destruct e as [[]| | | | |]; simpl; try done.
  by constructor.
Qed.

Lemma audio_own_files (filePath : string) (chatID : Z) (evs : list Event) :
  Forall (delivery_call filePath chatID) evs →
  Forall (own_file filePath) (audio_sent evs).
Proof.
  induction 1 as [|e evs He _ IH]; [constructor|].
  unfold audio_sent in *. destruct e as [[]| | | | |]; simpl; try done.
  destruct He as [_ He]. by constructor.
Qed.

(** X6: every run of [checkAndSendFile] returns, and all it does outside
    the process is to stat its file, log, run [ffmpeg] and [test], and send
    to its chat and remove its file or parts of it: it sends no text,
    reads no clock and removes or sends no other file. *)
Theorem checkAndSendFile_frame (filePath : string) (chatID : Z) (w : World) :
  ∃ (err : option string) (w' : World),
    checkAndSendFile env filePath chatID w = (Returns err, w') ∧
    trace w' = trace w ++ new_events w w' ∧
    Forall (delivery_call filePath chatID) (new_events w w') ∧
    text_sent (new_events w w') = [] ∧
    (EvNow ∉ new_events w w') ∧
    Forall (own_file filePath) (removed (new_events w w')) ∧
    Forall (own_file filePath) (audio_sent (new_events w w')).
Proof.
  destruct (checkAndSendFile_calls env filePath chatID w)
    as (err & w' & Hrun & Htr & Hcalls).
  exists err, w'. split; [done|]. split; [done|]. split; [done|].
  split; [by eapply text_sent_delivery|]. split.
  - intros Hin. rewrite Forall_forall in Hcalls. by apply Hcalls in Hin.
  - split; [by eapply removed_own_files | by eapply audio_own_files].
Qed.

End Frame.
